(** * KBO_Classifier: the simulate-and-parse backend

    A shallow embedding of [simulate_and_parse_backend.ipynb]: the feature
    extractor [parse], the simulation runner [run_simulation] and the input
    adapters [compute_from_file], [compute_from_aei] and
    [compute_from_jpl].

    Number model.  The notebook computes on numpy [float64] values.  The
    file holds two embeddings of it.

    In the first a number is a real ([R]) and arithmetic is exact.  It
    carries what does not depend on rounding: which rows and columns are
    read, the shape and the order of the feature vector, the statistic each
    entry is by definition, the exceptions raised, the trace file, the
    schedule of the integration.

    In the second, module [F64], a number is a binary64 float (Rocq's
    primitive floats: each operation rounded to nearest even, with [inf]
    and [nan]).  It carries what depends on the arithmetic: the values of
    the statistics, the recorded angles, the division by a zero time step,
    and the callers [compute_from_aei] and [compute_from_jpl].

    Exceptions.  A Python call either returns or raises; [Py.result] is the
    outcome, and [x <- m ;; k] sequences two calls.

    Arrays.  A 1-D array is a list, a 2-D array the list of its rows.  The
    arrays numpy builds are rectangular; [Np.shape a n m] says so. *)

From Stdlib Require Import Floats Uint63.
From Stdlib Require Import Ascii String Reals List ZArith Lia Lra Bool.
#[local] Set Warnings "-inexact-float".
Import ListNotations.
Local Open Scope R_scope.

(** ** Python: exceptions, indexing, [for] loops *)

Module Py.

Inductive exn : Set :=
| IndexError
| ValueError
| ZeroDivisionError.

Inductive result (A : Type) : Type :=
| Ok (a : A)
| Raise (e : exn).

Arguments Ok {A} a.
Arguments Raise {A} e.

Definition bind {A B : Type} (m : result A) (k : A -> result B) : result B :=
  match m with
  | Ok a => k a
  | Raise e => Raise e
  end.

Definition raises {A : Type} (m : result A) : Prop :=
  exists e, m = Raise e.

(** [l[i]]: a negative index counts from the end, an index outside
    [-len, len) raises [IndexError]. *)
Definition index {A : Type} (l : list A) (i : Z) : result A :=
  let n := Z.of_nat (length l) in
  let k := if (i <? 0)%Z then (n + i)%Z else i in
  if ((0 <=? k)%Z && (k <? n)%Z)%bool
  then match nth_error l (Z.to_nat k) with
       | Some a => Ok a
       | None => Raise IndexError
       end
  else Raise IndexError.

(** [for x in xs: s = body(s, x)], stopping at the first exception. *)
Fixpoint for_each {S A : Type} (body : S -> A -> result S)
         (xs : list A) (s : S) : result S :=
  match xs with
  | [] => Ok s
  | x :: xs' => bind (body s x) (for_each body xs')
  end.

(** [[f(x) for x in xs]], stopping at the first exception. *)
Fixpoint map_each {A B : Type} (f : A -> result B) (xs : list A)
  : result (list B) :=
  match xs with
  | [] => Ok []
  | x :: xs' =>
      bind (f x) (fun y => bind (map_each f xs') (fun ys => Ok (y :: ys)))
  end.

End Py.

Export Py.

Notation "x <- m ;; k" := (Py.bind m (fun x => k))
  (at level 61, m at next level, right associativity).

(** ** The fragment of numpy the notebook uses *)

Module Np.

Definition array1 : Type := list R.
Definition array2 : Type := list (list R).

(** Every row has [m] entries; [a.shape == (n, m)]. *)
Definition width (m : nat) (a : array2) : Prop :=
  Forall (fun r => length r = m) a.

Definition shape (a : array2) (n m : nat) : Prop :=
  length a = n /\ width m a.

Definition zip_with {A B C : Type} (f : A -> B -> C)
           (u : list A) (v : list B) : list C :=
  map (fun p => f (fst p) (snd p)) (combine u v).

(** [u - v] on 1-D and on 2-D arrays of one shape. *)
Definition sub1 (u v : array1) : array1 := zip_with Rminus u v.
Definition sub2 (a b : array2) : array2 := zip_with sub1 a b.

(** [a[:, 1:]], [a[1:, :]], [a[:-1, :]] and [a[:, k]].  A list of rows
    does not record the width of an array without rows: there [a[:, k]] is
    the empty column for every [k]. *)
Definition cols_from1 (a : array2) : array2 := map (skipn 1) a.
Definition rows_from1 (a : array2) : array2 := skipn 1 a.
Definition rows_but_last (a : array2) : array2 := removelast a.
Definition take_column (a : array2) (k : Z) : result array1 :=
  map_each (fun r => index r k) a.

(** A reduction along axis 0 folds the rows into one, entry by entry.
    [np.amin] and [np.amax] have no identity: on an array without rows they
    raise [ValueError]. *)
Definition reduce_axis0 (f : R -> R -> R) (a : array2) : result array1 :=
  match a with
  | [] => Raise ValueError
  | r :: rs => Ok (fold_left (zip_with f) rs r)
  end.

Definition amin_axis0 : array2 -> result array1 := reduce_axis0 Rmin.
Definition amax_axis0 : array2 -> result array1 := reduce_axis0 Rmax.

(** [np.add.reduce(a, axis=0)].  On an array without rows numpy returns
    zeros; the row width is not recorded in a list of rows, and the notebook
    never sums such an array, so the model returns the empty row there. *)
Definition add_reduce_axis0 (a : array2) : array1 :=
  match a with
  | [] => []
  | r :: rs => fold_left (zip_with Rplus) rs r
  end.

(** [np.mean(a, axis=0)]: the column sums over the number of rows. *)
Definition mean_axis0 (a : array2) : array1 :=
  map (fun s => s / INR (length a)) (add_reduce_axis0 a).

(** [np.std(a, axis=0)], with numpy's default [ddof=0]:
    [sqrt(mean(abs(a - a.mean(axis=0))**2, axis=0))]. *)
Definition std_axis0 (a : array2) : array1 :=
  let arrmean := mean_axis0 a in
  let x := map (fun r => sub1 r arrmean) a in
  let x2 := map (map (fun d => d * d)) x in
  map sqrt (mean_axis0 x2).

(** [a / t[:, np.newaxis]]: row [k] of [a] divided by [t[k]]. *)
Definition div_newaxis (a : array2) (t : array1) : array2 :=
  zip_with (fun row d => map (fun x => x / d) row) a t.

(** [v[:, np.newaxis]] and [np.concatenate((a, b), axis=1)]. *)
Definition newaxis (v : array1) : array2 := map (fun x => [x]) v.
Definition concatenate_axis1 (a b : array2) : array2 :=
  zip_with (@app R) a b.

End Np.

Export Np.

(** ** The notebook *)

(** [parse(data)], statement by statement. *)
Definition parse (data : array2) : result array2 :=
  row0 <- index data 0 ;;
  let initials := skipn 1 row0 in
  rowl <- index data (-1) ;;
  let finals := skipn 1 rowl in
  mins <- amin_axis0 (cols_from1 data) ;;
  maxes <- amax_axis0 (cols_from1 data) ;;
  let dels := sub1 maxes mins in
  let means := mean_axis0 (cols_from1 data) in
  let stdev := std_axis0 (cols_from1 data) in
  let diffs := sub2 (rows_from1 data) (rows_but_last data) in
  dt <- take_column diffs 0 ;;
  let dxdt := div_newaxis (cols_from1 diffs) dt in
  mindxdt <- amin_axis0 dxdt ;;
  let meandxdt := mean_axis0 dxdt in
  maxdxdt <- amax_axis0 dxdt ;;
  let deldxdt := sub1 maxdxdt mindxdt in
  let arrs := [initials; finals; mins; means; maxes; stdev; dels;
               mindxdt; meandxdt; maxdxdt; deldxdt] in
  let inds := [0; 1; 2; 3; 4]%Z in
  features <-
    for_each (fun features i =>
      for_each (fun features a =>
        x <- index a i ;; Ok (features ++ [x])) arrs features)
      inds [] ;;
  Ok [features].

(** The column-sorting block of [compute_from_file]: [data] starts as column
    [co[0]] of [data_t] and gets one more column per entry [i] of [co[1:]],
    namely column [co[i]] of [data_t]. *)
Definition sort_columns (data_t : array2) (co : list Z) : result array2 :=
  c0 <- index co 0 ;;
  col0 <- take_column data_t c0 ;;
  for_each (fun data i =>
    ci <- index co i ;;
    col <- take_column data_t ci ;;
    Ok (concatenate_axis1 data (newaxis col)))
    (skipn 1 co) (newaxis col0).

Definition default_col_order : list Z := [0; 1; 2; 3; 4; 5]%Z.

(** The columns of [data_t] that the block above reads, in the order of the
    columns of [data], for in-range natural indices [co]: [co[0]], then
    [co[i]] for each entry [i] of [co[1:]]. *)
Definition picked_columns (co : list nat) : list nat :=
  hd 0%nat co :: map (fun i => nth i co 0%nat) (skipn 1 co).

(** [compute_from_file(fname, col_order)].  [np.loadtxt(fname)] is the
    library's reader; [loaded] is the 2-D array it returns.  The two [print]
    calls are left out. *)
Definition compute_from_file (loaded : array2) (col_order : list Z)
  : result array2 :=
  let data_t := firstn 101 loaded in
  data <- sort_columns data_t col_order ;;
  parse data.

(** *** The simulation side *)

(** What [sim.calculate_orbits] returns per body, and what [sim.add] takes:
    angles in radians. *)
Module Orbit.
Record t : Type := {
  a : R; e : R; inc : R; Omega : R; omega : R; M : R
}.
End Orbit.

Definition orbit : Type := Orbit.t.

(** The rebound calls the notebook makes.  A simulation object is mutated
    in place in Python; here each mutating call returns the new state. *)
Class Rebound : Type := {
  simulation : Type;
  particle : Type;
  Simulation : simulation;
  set_units : simulation -> string * string * string -> simulation;
  add_by_name : simulation -> string -> option string -> simulation;
  add_by_elements : simulation -> orbit -> option particle -> simulation;
  calculate_com : simulation -> particle;
  calculate_orbits : simulation -> particle -> list orbit;
  calculate_energy : simulation -> R;
  N_bodies : simulation -> Z;
  set_N_active : simulation -> Z -> simulation;
  move_to_com : simulation -> simulation;
  set_integrator : simulation -> string -> simulation;
  set_dt : simulation -> R -> simulation;
  integrate_exact : simulation -> R -> simulation
}.

(** Python's [str(round(float(x), 4))]. *)
Class FloatFormat : Type := {
  str_round4 : R -> string
}.

Fixpoint replicate (n : nat) (c : Ascii.ascii) : string :=
  match n with
  | O => EmptyString
  | S n' => String c (replicate n' c)
  end.

(** [s.ljust(width, c)]. *)
Definition ljust (s : string) (width : nat) (c : Ascii.ascii) : string :=
  (s ++ replicate (width - String.length s) c)%string.

(** [np.degrees], [np.radians] and the float [%] of Python and numpy, whose
    result takes the sign of the divisor. *)
Definition degrees (x : R) : R := x * (180 / PI).
Definition radians (x : R) : R := x * (PI / 180).
Definition pymod (x y : R) : R := x - y * IZR (Zfloor (x / y)).

(** [np.linspace(0, 100E3, 101)]. *)
Definition time_outs : list R := map (fun k => INR k * 1000) (seq 0 101).

(** The [data] variable of [run_simulation]: the empty list at first
    ([Arr1 []]), the first [step] after one pass, a 2-D array from then on. *)
Inductive ndarray : Type :=
| Arr1 (v : array1)
| Arr2 (rows : array2).

Definition len (d : ndarray) : nat :=
  match d with
  | Arr1 v => length v
  | Arr2 rows => length rows
  end.

(** [np.vstack((data, step))]; every [step] has six entries, so the widths
    agree. *)
Definition vstack (d : ndarray) (step : array1) : ndarray :=
  match d with
  | Arr1 v => Arr2 [v; step]
  | Arr2 rows => Arr2 (rows ++ [step])
  end.

(** A line of the trace file, before [' '.join(map(str, ...))]. *)
Inductive trace_line : Type :=
| Header (text : string)
| Line (id : Z) (fields : list R).

(** The row [step] and the file lines that [run_simulation] builds from an
    orbit [o] at time [t]:
    [[t, o.a, o.e, degrees(o.inc), degrees(o.Omega)%360, degrees(o.omega)%360]]
    and [[id, t, o.a, o.e, degrees(o.inc), degrees(o.Omega)%360,
    degrees(o.omega)%360, degrees(o.M)%360]]. *)
Definition step_of (t : R) (o : orbit) : array1 :=
  [t; Orbit.a o; Orbit.e o; degrees (Orbit.inc o);
   pymod (degrees (Orbit.Omega o)) 360; pymod (degrees (Orbit.omega o)) 360].

Definition line_of (id : Z) (t : R) (o : orbit) : trace_line :=
  Line id [t; Orbit.a o; Orbit.e o; degrees (Orbit.inc o);
           pymod (degrees (Orbit.Omega o)) 360;
           pymod (degrees (Orbit.omega o)) 360;
           pymod (degrees (Orbit.M o)) 360].

(** The rows [data] holds. *)
Definition rows_of (d : ndarray) : array2 :=
  match d with
  | Arr1 [] => []
  | Arr1 v => [v]
  | Arr2 rows => rows
  end.

(** What the loop of [run_simulation] keeps true of [data]: it is the empty
    list, one row of six entries, or a 2-D array of two rows at least. *)
Definition data_form (d : ndarray) : Prop :=
  match d with
  | Arr1 v => v = [] \/ length v = 6%nat
  | Arr2 rows => (2 <= length rows)%nat
  end.

Definition date_of_epoch `{FloatFormat} (epoch : R) : option string :=
  if Rlt_dec 0 epoch
  then Some ("JD" ++ ljust (str_round4 epoch) 12 "0"%char)%string
  else None.

Section Simulation.

Context `{Rebound} `{FloatFormat}.

(** The state the loop of [run_simulation] updates: the simulation, [data]
    and the lines written to the file so far. *)
Definition run_state : Type := (simulation * ndarray * list trace_line)%type.

(** One pass of the loop over [time_outs]. *)
Definition run_step (writeout : bool) (st : run_state) (t : R)
  : result run_state :=
  let '(sim, data, file) := st in
  let sim := if Rlt_dec 0 t then integrate_exact sim t else sim in
  let orbits := calculate_orbits sim (calculate_com sim) in
  o <- index orbits (-1) ;;
  let step := step_of t o in
  let data := if Nat.eqb (len data) 0 then Arr1 step
              else vstack data step in
  if writeout then
    o_N <- index orbits (-2) ;;
    let N_line := line_of (-1) t o_N in
    o <- index orbits (-1) ;;
    let KBO_line := line_of 0 t o in
    Ok (sim, data, file ++ [N_line; KBO_line])
  else Ok (sim, data, file).

(** [run_simulation(sim, savename)]: returns [sim], [data] and, as the third
    component, the content of the file [savename] after the call ([None]
    when no file is written). *)
Definition run_simulation (sim : simulation) (savename : string)
  : result (simulation * ndarray * option (list trace_line)) :=
  let writeout := negb (String.eqb savename "") in
  let file := if writeout
              then [Header "id, t, a, e, i, Omega, omega, M"]
              else [] in
  let sim := set_N_active sim (N_bodies sim - 1) in
  let sim := move_to_com sim in
  let sim := set_integrator sim "mercurius" in
  let sim := set_dt sim (1 / 10) in
  st <- for_each (run_step writeout) time_outs (sim, Arr1 [], file) ;;
  let '(sim, data, file) := st in
  Ok (sim, data, if writeout then Some file else None).

End Simulation.

(** ** The specification's words *)

Module Spec.

(** Column [j] of a table. *)
Definition column (j : nat) (data : array2) : list R :=
  map (fun r => nth j r 0) data.

Definition initial (x : list R) : R := hd 0 x.
Definition final (x : list R) : R := last x 0.

Definition minimum (x : list R) : R :=
  match x with
  | [] => 0
  | v :: vs => fold_right Rmin v vs
  end.

Definition maximum (x : list R) : R :=
  match x with
  | [] => 0
  | v :: vs => fold_right Rmax v vs
  end.

Definition total (x : list R) : R := fold_right Rplus 0 x.

Definition mean (x : list R) : R := total x / INR (length x).

Definition squared_deviations (x : list R) : list R :=
  map (fun v => (v - mean x) * (v - mean x)) x.

(** Population standard deviation: divisor [N]. *)
Definition population_stdev (x : list R) : R :=
  sqrt (total (squared_deviations x) / INR (length x)).

(** Sample standard deviation: divisor [N - 1]. *)
Definition sample_stdev (x : list R) : R :=
  sqrt (total (squared_deviations x) / (INR (length x) - 1)).

(** First differences between consecutive entries. *)
Fixpoint first_differences (x : list R) : list R :=
  match x with
  | u :: (v :: _) as rest => (v - u) :: first_differences rest
  | _ => []
  end.

(** First difference of the element over first difference of time. *)
Definition rates (t x : list R) : list R :=
  zip_with Rdiv (first_differences x) (first_differences t).

(** The eleven statistics of one element, in the fixed order. *)
Definition element_features (t x : list R) : list R :=
  [initial x; final x; minimum x; mean x; maximum x; population_stdev x;
   maximum x - minimum x;
   minimum (rates t x); mean (rates t x); maximum (rates t x);
   maximum (rates t x) - minimum (rates t x)].

(** The 55 values: a, e, i, Omega, omega are columns 1 to 5, time is
    column 0. *)
Definition feature_vector (data : array2) : list R :=
  flat_map (fun j => element_features (column 0 data) (column j data))
           [1; 2; 3; 4; 5]%nat.

(** Position of statistic [k] (0 to 10) of element [j] (0 to 4). *)
Definition slot (j k : nat) : nat := (11 * j + k)%nat.

(** The statistics by name, and the position of each within the eleven
    entries of an element. *)
Inductive statistic : Set :=
| Initial | Final | Min | Mean | Max | Stdev | Range
| RateMin | RateMean | RateMax | RateRange.

Definition position (s : statistic) : nat :=
  match s with
  | Initial => 0 | Final => 1 | Min => 2 | Mean => 3 | Max => 4
  | Stdev => 5 | Range => 6
  | RateMin => 7 | RateMean => 8 | RateMax => 9 | RateRange => 10
  end.

(** Every time difference is positive. *)
Definition increasing_time (data : array2) : Prop :=
  Forall (fun d => 0 < d) (first_differences (column 0 data)).

(** A TrajectorySample: 101 rows, 6 columns, strictly increasing time. *)
Definition TrajectorySample (data : array2) : Prop :=
  shape data 101 6 /\ increasing_time data.

End Spec.

(** ** [run_simulation] in pieces *)

Section Catalog.

Context `{Rebound} `{FloatFormat}.

(** Pieces of [run_simulation] by name: the settings made before the loop,
    [if t>0: sim.integrate(t, exact_finish_time=True)], and the
    simulation at each checkpoint of a list of times. *)
Definition configure (sim : simulation) : simulation :=
  set_dt (set_integrator (move_to_com
    (set_N_active sim (N_bodies sim - 1))) "mercurius") (1 / 10).

Definition advance (sim : simulation) (t : R) : simulation :=
  if Rlt_dec 0 t then integrate_exact sim t else sim.

Fixpoint checkpoints (sim : simulation) (ts : list R)
  : list (R * simulation) :=
  match ts with
  | [] => []
  | t :: ts' => (t, advance sim t) :: checkpoints (advance sim t) ts'
  end.

End Catalog.

(** What one pass of the loop of [run_simulation] reads: the time, Neptune
    ([orbits[-2]]) and the target ([orbits[-1]]). *)
Record reading : Type := {
  r_time : R;
  r_neptune : orbit;
  r_target : orbit
}.

Definition row_of_reading (rd : reading) : array1 :=
  step_of (r_time rd) (r_target rd).

Definition lines_of_reading (rd : reading) : list trace_line :=
  [line_of (-1) (r_time rd) (r_neptune rd);
   line_of 0 (r_time rd) (r_target rd)].

(** [rd] is what the loop reads at checkpoint [cp]; Neptune is only read
    when a file is written. *)
Definition reads `{Rebound} (writeout : bool) (cp : R * simulation)
           (rd : reading) : Prop :=
  r_time rd = fst cp /\
  index (calculate_orbits (snd cp) (calculate_com (snd cp))) (-1)
  = Ok (r_target rd) /\
  (writeout = true ->
   index (calculate_orbits (snd cp) (calculate_com (snd cp))) (-2)
   = Ok (r_neptune rd)).


(** ** Sample inputs *)

(** K04VD0X, the default body of [compute_from_aei], held on a fixed orbit:
    row [k] of [steady_table n] is the checkpoint at [1000 k] years. *)
Definition steady_row (t : R) : list R :=
  [t; 39.403; 0.20724; 5.7449; 44.431; 291.10].

Definition steady_table (n : nat) : array2 :=
  map (fun k => steady_row (INR k * 1000)) (seq 0 n).

(** A body whose semi-major axis drifts outwards by a thousandth of an AU
    per checkpoint. *)
Definition drifting_table (n : nat) : array2 :=
  map (fun k => [INR k * 1000; 39.403 + INR k / 1000; 0.20724; 5.7449;
                 44.431; 291.10]) (seq 0 n).

(** A column order that swaps a and e, and one for a file with an extra
    column between the time and a. *)
Definition swapped_col_order : list Z := [0; 2; 1; 3; 4; 5]%Z.
Definition shifted_col_order : list Z := [0; 2; 3; 4; 5; 6]%Z.

(** A stand-in for rebound with two bodies on fixed orbits; the state of a
    simulation is its current time. *)
Definition fixed_orbit : orbit :=
  {| Orbit.a := 30; Orbit.e := 0; Orbit.inc := 0;
     Orbit.Omega := radians 370; Orbit.omega := radians (-10);
     Orbit.M := 0 |}.

Definition clockwork : Rebound :=
  {| simulation := R;
     particle := unit;
     Simulation := 0;
     set_units := fun sim _ => sim;
     add_by_name := fun sim _ _ => sim;
     add_by_elements := fun sim _ _ => sim;
     calculate_com := fun _ => tt;
     calculate_orbits := fun _ _ => [fixed_orbit; fixed_orbit];
     calculate_energy := fun _ => 0;
     N_bodies := fun _ => 2%Z;
     set_N_active := fun sim _ => sim;
     move_to_com := fun sim => sim;
     set_integrator := fun sim _ => sim;
     set_dt := fun sim _ => sim;
     integrate_exact := fun _ t => t |}.


Definition plain_format : FloatFormat :=
  {| str_round4 := fun _ => "2453318.8875"%string |}.

(** * The notebook on binary64 floats

    The same functions again, statement by statement, with numpy's [float64]
    as Rocq's primitive binary64 floats: every operation rounds to nearest
    even as IEEE 754 prescribes, and [inf] and [nan] are values.  What cannot
    be read off the notebook is read off numpy and Python: the order in
    which a reduction along axis 0 combines the rows (row after row), the
    steps of [np.std], the comparison [np.minimum] and [np.maximum] make,
    the float [%], and Python's float division, which raises on a zero
    divisor where numpy's does not. *)

Module F64.

Local Open Scope float_scope.

Definition array1 : Type := list float.
Definition array2 : Type := list (list float).

Definition width (m : nat) (a : array2) : Prop :=
  Forall (fun r => length r = m) a.

Definition shape (a : array2) (n m : nat) : Prop :=
  length a = n /\ width m a.

(** The conversion of a count ([a.shape[0]], an integer below [2^63]) to
    [float64]. *)
Definition of_count (n : nat) : float :=
  PrimFloat.of_uint63 (Uint63.of_Z (Z.of_nat n)).

(** What the loops of [np.minimum] and [np.maximum] compute on two doubles:
    [(a <= b || isnan(a)) ? a : b] and [(a >= b || isnan(a)) ? a : b].  A
    [nan] on either side is returned; of two equal values (the two zeros
    among them) this model returns the first. *)
Definition np_minimum (a b : float) : float :=
  if (a <=? b) || PrimFloat.is_nan a then a else b.

Definition np_maximum (a b : float) : float :=
  if (b <=? a) || PrimFloat.is_nan a then a else b.

(** Python's [a / b] on two floats. *)
Definition py_div (a b : float) : result float :=
  if b =? 0 then Raise ZeroDivisionError else Ok (a / b).

(** [u - v] on 1-D and on 2-D arrays of one shape. *)
Definition sub1 (u v : array1) : array1 := zip_with PrimFloat.sub u v.
Definition sub2 (a b : array2) : array2 := zip_with sub1 a b.

(** [a[:, 1:]], [a[1:, :]], [a[:-1, :]] and [a[:, k]]. *)
Definition cols_from1 (a : array2) : array2 := map (skipn 1) a.
Definition rows_from1 (a : array2) : array2 := skipn 1 a.
Definition rows_but_last (a : array2) : array2 := removelast a.
Definition take_column (a : array2) (k : Z) : result array1 :=
  map_each (fun r => index r k) a.

(** A reduction along axis 0 starts from the first row and combines it
    with the following rows in order, entry by entry. *)
Definition reduce_axis0 (f : float -> float -> float) (a : array2)
  : result array1 :=
  match a with
  | [] => Raise ValueError
  | r :: rs => Ok (fold_left (zip_with f) rs r)
  end.

Definition amin_axis0 : array2 -> result array1 := reduce_axis0 np_minimum.
Definition amax_axis0 : array2 -> result array1 := reduce_axis0 np_maximum.

(** [np.add.reduce(a, axis=0)]: the rows are added one after the other,
    each sum rounded.  (A numpy that starts the sum from the identity [0.0]
    instead of the first row differs in the sign of a zero sum only.) *)
Definition add_reduce_axis0 (a : array2) : array1 :=
  match a with
  | [] => []
  | r :: rs => fold_left (zip_with PrimFloat.add) rs r
  end.

(** [np.mean(a, axis=0)]: [umr_sum(a, axis) / a.shape[0]]. *)
Definition mean_axis0 (a : array2) : array1 :=
  map (fun s => s / of_count (length a)) (add_reduce_axis0 a).

(** [np.std(a, axis=0)], as numpy's [_var] computes it with [ddof=0]:
    [arrmean = umr_sum(a, axis) / n; x = a - arrmean; x = x * x;
    ret = umr_sum(x, axis) / n; sqrt(ret)]. *)
Definition std_axis0 (a : array2) : array1 :=
  let arrmean := mean_axis0 a in
  let x := map (fun r => sub1 r arrmean) a in
  let x2 := map (map (fun d => d * d)) x in
  map PrimFloat.sqrt (mean_axis0 x2).

(** [a / t[:, np.newaxis]]: numpy's float division, which never raises. *)
Definition div_newaxis (a : array2) (t : array1) : array2 :=
  zip_with (fun row d => map (fun x => x / d) row) a t.

(** [parse(data)], statement by statement. *)
Definition parse (data : array2) : result array2 :=
  row0 <- index data 0 ;;
  let initials := skipn 1 row0 in
  rowl <- index data (-1) ;;
  let finals := skipn 1 rowl in
  mins <- amin_axis0 (cols_from1 data) ;;
  maxes <- amax_axis0 (cols_from1 data) ;;
  let dels := sub1 maxes mins in
  let means := mean_axis0 (cols_from1 data) in
  let stdev := std_axis0 (cols_from1 data) in
  let diffs := sub2 (rows_from1 data) (rows_but_last data) in
  dt <- take_column diffs 0 ;;
  let dxdt := div_newaxis (cols_from1 diffs) dt in
  mindxdt <- amin_axis0 dxdt ;;
  let meandxdt := mean_axis0 dxdt in
  maxdxdt <- amax_axis0 dxdt ;;
  let deldxdt := sub1 maxdxdt mindxdt in
  let arrs := [initials; finals; mins; means; maxes; stdev; dels;
               mindxdt; meandxdt; maxdxdt; deldxdt] in
  let inds := [0; 1; 2; 3; 4]%Z in
  features <-
    for_each (fun features i =>
      for_each (fun features a =>
        x <- index a i ;; Ok (features ++ [x])) arrs features)
      inds [] ;;
  Ok [features].

(** *** What [parse] computes, column by column *)

Definition column (j : nat) (data : array2) : list float :=
  map (fun r => nth j r 0) data.

Definition initial (x : list float) : float := hd 0 x.
Definition final (x : list float) : float := last x 0.

Definition minimum (x : list float) : float :=
  match x with
  | [] => 0
  | v :: vs => fold_left np_minimum vs v
  end.

Definition maximum (x : list float) : float :=
  match x with
  | [] => 0
  | v :: vs => fold_left np_maximum vs v
  end.

Definition total (x : list float) : float :=
  match x with
  | [] => 0
  | v :: vs => fold_left PrimFloat.add vs v
  end.

Definition mean (x : list float) : float := total x / of_count (length x).

Definition squared_deviations (x : list float) : list float :=
  map (fun v => (v - mean x) * (v - mean x)) x.

Definition stdev (x : list float) : float :=
  PrimFloat.sqrt (mean (squared_deviations x)).

Fixpoint first_differences (x : list float) : list float :=
  match x with
  | u :: (v :: _) as rest => (v - u) :: first_differences rest
  | _ => []
  end.

Definition rates (t x : list float) : list float :=
  zip_with PrimFloat.div (first_differences x) (first_differences t).

Definition element_features (t x : list float) : list float :=
  [initial x; final x; minimum x; mean x; maximum x; stdev x;
   maximum x - minimum x;
   minimum (rates t x); mean (rates t x); maximum (rates t x);
   maximum (rates t x) - minimum (rates t x)].

Definition feature_vector (data : array2) : list float :=
  flat_map (fun j => element_features (column 0 data) (column j data))
           [1; 2; 3; 4; 5]%nat.

(** The entry of a feature row for statistic [s] of element [j]. *)
Definition entry (row : list float) (j : nat) (s : Spec.statistic) : float :=
  nth (Spec.slot j (Spec.position s)) row 0.

(** The time differences [parse] divides by. *)
Definition time_steps (data : array2) : list float :=
  first_differences (column 0 data).

(** Two consecutive rows whose computed time difference is zero. *)
Definition zero_timestep (data : array2) (k : nat) : Prop :=
  (k < length (time_steps data))%nat /\
  (nth k (time_steps data) 0 =? 0) = true.

(** Every computed time difference is positive. *)
Definition increasing_time (data : array2) : Prop :=
  Forall (fun d => (0 <? d) = true) (time_steps data).

(** A TrajectorySample: 101 rows, 6 columns, increasing time. *)
Definition TrajectorySample (data : array2) : Prop :=
  shape data 101 6 /\ increasing_time data.


(** *** The simulation side *)

Module Orbit.
Record t : Type := {
  a : float; e : float; inc : float; Omega : float; omega : float; M : float
}.
End Orbit.

Definition orbit : Type := Orbit.t.

(** The rebound calls the notebook makes, on floats. *)
Class Rebound : Type := {
  simulation : Type;
  particle : Type;
  Simulation : simulation;
  set_units : simulation -> string * string * string -> simulation;
  add_by_name : simulation -> string -> option string -> simulation;
  add_by_elements : simulation -> orbit -> option particle -> simulation;
  calculate_com : simulation -> particle;
  calculate_orbits : simulation -> particle -> list orbit;
  calculate_energy : simulation -> float;
  N_bodies : simulation -> Z;
  set_N_active : simulation -> Z -> simulation;
  move_to_com : simulation -> simulation;
  set_integrator : simulation -> string -> simulation;
  set_dt : simulation -> float -> simulation;
  integrate_exact : simulation -> float -> simulation
}.

(** What the words of the specification speak of and the notebook never
    calls: the Sun as a primary ([sim.particles[0]], the first body
    [start_simulation] adds), and the meaning rebound gives to
    [primary=None] in [sim.add]: the centre of mass of the bodies present. *)
Class Frames `{Rebound} : Type := {
  sun : simulation -> particle;
  add_default_primary :
    forall (sim : simulation) (o : orbit),
      add_by_elements sim o None
      = add_by_elements sim o (Some (calculate_com sim))
}.

(** Python's [str(round(float(x), 4))]. *)
Class FloatFormat : Type := {
  str_round4 : float -> string
}.

(** [np.degrees] and [np.radians]: one multiplication by the double
    [180.0/pi], respectively [pi/180.0]. *)
Definition pi : float := 0x1.921fb54442d18p+1.
Definition degrees (x : float) : float := x * (180 / pi).
Definition radians (x : float) : float := x * (pi / 180).

(** C's [fmod(x, y)]: the remainder of [x] by [y] with the sign of [x],
    without rounding; [x] itself when [|x| < |y|]; [nan] when [x] is
    infinite, [y] is zero or either is [nan].  Otherwise the remainder is
    taken on the two mantissas brought to the smaller exponent. *)
Definition fmod (x y : float) : float :=
  if PrimFloat.abs x <? PrimFloat.abs y then x
  else match Prim2SF x, Prim2SF y with
       | S754_finite sx mx ex, S754_finite sy my ey =>
           let e := Z.min ex ey in
           let a := (Z.pos mx * 2 ^ (ex - e))%Z in
           let b := (Z.pos my * 2 ^ (ey - e))%Z in
           SF2Prim (binary_normalize prec emax
                      (cond_Zopp sx (Z.rem a b)) e sx)
       | _, _ => nan
       end.

(** The float [x % y] of Python and numpy ([npy_divmod]): [fmod(x, y)],
    moved by [y] when it is not zero and its sign is not that of [y]; a zero
    remainder takes the sign of [y]. *)
Definition pymod (x y : float) : float :=
  let m := fmod x y in
  if y =? 0 then m
  else if m =? 0 then (if y <? 0 then -0 else 0)
  else if xorb (y <? 0) (m <? 0) then m + y
  else m.

(** [np.linspace(0, 100E3, 101)]: [arange(0, 101) * step + start] with
    [step = (100E3 - 0) / 100]; the last entry, set to [100E3], is the one
    the formula gives. *)
Definition time_outs : list float :=
  map (fun k => of_count k * (100000 / of_count 100) + 0) (seq 0 101).

(** The [data] variable of [run_simulation]. *)
Inductive ndarray : Type :=
| Arr1 (v : array1)
| Arr2 (rows : array2).

Definition len (d : ndarray) : nat :=
  match d with
  | Arr1 v => length v
  | Arr2 rows => length rows
  end.

Definition vstack (d : ndarray) (step : array1) : ndarray :=
  match d with
  | Arr1 v => Arr2 [v; step]
  | Arr2 rows => Arr2 (rows ++ [step])
  end.

(** A line of the trace file, before [' '.join(map(str, ...))]. *)
Inductive trace_line : Type :=
| Header (text : string)
| Line (id : Z) (fields : list float).

(** The row [step] and the file lines that [run_simulation] builds from an
    orbit [o] at time [t]:
    [[t, o.a, o.e, degrees(o.inc), degrees(o.Omega)%360, degrees(o.omega)%360]]
    and [[id, t, o.a, o.e, degrees(o.inc), degrees(o.Omega)%360,
    degrees(o.omega)%360, degrees(o.M)%360]]. *)
Definition step_of (t : float) (o : orbit) : array1 :=
  [t; Orbit.a o; Orbit.e o; degrees (Orbit.inc o);
   pymod (degrees (Orbit.Omega o)) 360; pymod (degrees (Orbit.omega o)) 360].

Definition line_of (id : Z) (t : float) (o : orbit) : trace_line :=
  Line id [t; Orbit.a o; Orbit.e o; degrees (Orbit.inc o);
           pymod (degrees (Orbit.Omega o)) 360;
           pymod (degrees (Orbit.omega o)) 360;
           pymod (degrees (Orbit.M o)) 360].

Definition rows_of (d : ndarray) : array2 :=
  match d with
  | Arr1 [] => []
  | Arr1 v => [v]
  | Arr2 rows => rows
  end.

Definition data_form (d : ndarray) : Prop :=
  match d with
  | Arr1 v => v = [] \/ length v = 6%nat
  | Arr2 rows => (2 <= length rows)%nat
  end.

Definition date_of_epoch `{FloatFormat} (epoch : float) : option string :=
  if 0 <? epoch
  then Some ("JD" ++ ljust (str_round4 epoch) 12 "0"%char)%string
  else None.

Section Simulation.

Context `{Rebound} `{FloatFormat}.

(** [start_simulation(epoch)]. *)
Definition start_simulation (epoch : float) : simulation :=
  let sim := Simulation in
  let sim := set_units sim ("yr", "AU", "Msun")%string in
  let date := date_of_epoch epoch in
  let sim := add_by_name sim "Sun" date in
  let sim := add_by_name sim "Jupiter" date in
  let sim := add_by_name sim "Saturn" date in
  let sim := add_by_name sim "Uranus" date in
  let sim := add_by_name sim "Neptune" date in
  sim.

Definition run_state : Type := (simulation * ndarray * list trace_line)%type.

(** One pass of the loop over [time_outs]. *)
Definition run_step (writeout : bool) (st : run_state) (t : float)
  : result run_state :=
  let '(sim, data, file) := st in
  let sim := if 0 <? t then integrate_exact sim t else sim in
  let orbits := calculate_orbits sim (calculate_com sim) in
  o <- index orbits (-1) ;;
  let step := step_of t o in
  let data := if Nat.eqb (len data) 0 then Arr1 step
              else vstack data step in
  if writeout then
    o_N <- index orbits (-2) ;;
    let N_line := line_of (-1) t o_N in
    o <- index orbits (-1) ;;
    let KBO_line := line_of 0 t o in
    Ok (sim, data, file ++ [N_line; KBO_line])
  else Ok (sim, data, file).

(** [run_simulation(sim, savename)]: returns [sim], [data] and the content
    of the file [savename] after the call ([None] when none is written). *)
Definition run_simulation (sim : simulation) (savename : string)
  : result (simulation * ndarray * option (list trace_line)) :=
  let writeout := negb (String.eqb savename "") in
  let file := if writeout
              then [Header "id, t, a, e, i, Omega, omega, M"]
              else [] in
  let sim := set_N_active sim (N_bodies sim - 1) in
  let sim := move_to_com sim in
  let sim := set_integrator sim "mercurius" in
  let sim := set_dt sim 0.1 in
  st <- for_each (run_step writeout) time_outs (sim, Arr1 [], file) ;;
  let '(sim, data, file) := st in
  Ok (sim, data, if writeout then Some file else None).

(** [parse] applied to whatever [run_simulation] returned: [data[0, 1:]]
    raises [IndexError] on a 1-D array. *)
Definition parse_ndarray (data : ndarray) : result array2 :=
  match data with
  | Arr1 _ => Raise IndexError
  | Arr2 rows => parse rows
  end.

(** [compute_from_aei(epoch, a, ecc, inc, Omega, omega, M, barycentric,
    savename)]: returns the features and the content of the trace file.
    The relative energy error that is printed is a division of Python
    floats, which raises on [E0 == 0]; [sim.status()] and the [print] calls
    themselves are left out. *)
Definition compute_from_aei (epoch a ecc inc Omega omega M : float)
           (barycentric : bool) (savename : string)
  : result (array2 * option (list trace_line)) :=
  let sim := start_simulation epoch in
  let primary := if barycentric then Some (calculate_com sim) else None in
  let sim := add_by_elements sim
               {| Orbit.a := a; Orbit.e := ecc; Orbit.inc := radians inc;
                  Orbit.omega := radians omega; Orbit.Omega := radians Omega;
                  Orbit.M := radians M |} None in
  let E0 := calculate_energy sim in
  out <- run_simulation sim savename ;;
  let '(sim, data, file) := out in
  err <- py_div (calculate_energy sim - E0) E0 ;;
  features <- parse_ndarray data ;;
  Ok (features, file).


(** [compute_from_aei] as the specification words it: the elements of the
    added body are taken relative to the centre of mass of the system when
    [barycentric] is set, and relative to the Sun when it is not. *)
Definition compute_from_aei_in_frame `{!Frames}
           (epoch a ecc inc Omega omega M : float)
           (barycentric : bool) (savename : string)
  : result (array2 * option (list trace_line)) :=
  let sim := start_simulation epoch in
  let primary := if barycentric then calculate_com sim else sun sim in
  let sim := add_by_elements sim
               {| Orbit.a := a; Orbit.e := ecc; Orbit.inc := radians inc;
                  Orbit.omega := radians omega; Orbit.Omega := radians Omega;
                  Orbit.M := radians M |} (Some primary) in
  let E0 := calculate_energy sim in
  out <- run_simulation sim savename ;;
  let '(sim, data, file) := out in
  err <- py_div (calculate_energy sim - E0) E0 ;;
  features <- parse_ndarray data ;;
  Ok (features, file).


(** Pieces of [run_simulation] by name: the settings made before the loop,
    [if t>0: sim.integrate(t, exact_finish_time=True)], and the simulation
    at each checkpoint of a list of times. *)
Definition configure (sim : simulation) : simulation :=
  set_dt (set_integrator (move_to_com
    (set_N_active sim (N_bodies sim - 1))) "mercurius") 0.1.

Definition advance (sim : simulation) (t : float) : simulation :=
  if 0 <? t then integrate_exact sim t else sim.

Fixpoint checkpoints (sim : simulation) (ts : list float)
  : list (float * simulation) :=
  match ts with
  | [] => []
  | t :: ts' => (t, advance sim t) :: checkpoints (advance sim t) ts'
  end.

End Simulation.

(** What one pass of the loop reads: the time, Neptune ([orbits[-2]]) and
    the target ([orbits[-1]]). *)
Record reading : Type := {
  r_time : float;
  r_neptune : orbit;
  r_target : orbit
}.

Definition row_of_reading (rd : reading) : array1 :=
  step_of (r_time rd) (r_target rd).

Definition lines_of_reading (rd : reading) : list trace_line :=
  [line_of (-1) (r_time rd) (r_neptune rd);
   line_of 0 (r_time rd) (r_target rd)].

(** [rd] is what the loop reads at checkpoint [cp]; Neptune is only read
    when a file is written. *)
Definition reads `{Rebound} (writeout : bool) (cp : float * simulation)
           (rd : reading) : Prop :=
  r_time rd = fst cp /\
  index (calculate_orbits (snd cp) (calculate_com (snd cp))) (-1)
  = Ok (r_target rd) /\
  (writeout = true ->
   index (calculate_orbits (snd cp) (calculate_com (snd cp))) (-2)
   = Ok (r_neptune rd)).

(** *** Sample inputs *)

(** K04VD0X held on a fixed orbit: row [k] is the checkpoint at [1000 k]
    years. *)
Definition steady_row (t : float) : list float :=
  [t; 39.403; 0.20724; 5.7449; 44.431; 291.10].

Definition steady_table (n : nat) : array2 :=
  map (fun k => steady_row (of_count k * 1000)) (seq 0 n).

(** A semi-major axis that grows by one AU per checkpoint: every rate of
    element a is the division of 1 by 1000. *)
Definition linear_table (n : nat) : array2 :=
  map (fun k => [of_count k * 1000; 39 + of_count k; 0.20724; 5.7449;
                 44.431; 291.10]) (seq 0 n).

(** The same body with a clock that never advances. *)
Definition frozen_table (n : nat) : array2 :=
  map (fun _ => steady_row 0) (seq 0 n).

(** A stand-in for rebound: Neptune and a target on fixed orbits, the
    orbit of the target given; the state of a simulation is its time. *)
Definition neptune_orbit : orbit :=
  {| Orbit.a := 30.07; Orbit.e := 0.0086; Orbit.inc := radians 1.77;
     Orbit.Omega := radians 131.78; Orbit.omega := radians 273.19;
     Orbit.M := radians 256.23 |}.

Definition clockwork (target : orbit) (energy : float) : Rebound :=
  {| simulation := float;
     particle := unit;
     Simulation := 0;
     set_units := fun sim _ => sim;
     add_by_name := fun sim _ _ => sim;
     add_by_elements := fun sim _ _ => sim;
     calculate_com := fun _ => tt;
     calculate_orbits := fun _ _ => [neptune_orbit; target];
     calculate_energy := fun _ => energy;
     N_bodies := fun _ => 6%Z;
     set_N_active := fun sim _ => sim;
     move_to_com := fun sim => sim;
     set_integrator := fun sim _ => sim;
     set_dt := fun sim _ => sim;
     integrate_exact := fun _ t => t |}.



(** A stand-in in which the frame matters and [primary=None] means the
    centre of mass, as in rebound.  A primary is the centre of mass or the
    Sun; the state is the body added by its elements together with the
    primary they were given against.  Reported against the centre of mass,
    the semi-major axis of a body added against the Sun comes out larger by
    a hundredth of an AU. *)
Inductive origin : Set := CentreOfMass | TheSun.

Definition seen_from_com (added : option (orbit * origin)) : orbit :=
  match added with
  | None => neptune_orbit
  | Some (o, CentreOfMass) => o
  | Some (o, TheSun) =>
      {| Orbit.a := Orbit.a o + 0.01; Orbit.e := Orbit.e o;
         Orbit.inc := Orbit.inc o; Orbit.Omega := Orbit.Omega o;
         Orbit.omega := Orbit.omega o; Orbit.M := Orbit.M o |}
  end.

Definition two_frames : Rebound :=
  {| simulation := option (orbit * origin);
     particle := origin;
     Simulation := None;
     set_units := fun sim _ => sim;
     add_by_name := fun sim _ _ => sim;
     add_by_elements := fun _ o primary =>
       Some (o, match primary with
                | Some p => p
                | None => CentreOfMass
                end);
     calculate_com := fun _ => CentreOfMass;
     calculate_orbits := fun sim _ => [neptune_orbit; seen_from_com sim];
     calculate_energy := fun _ => -0.0093;
     N_bodies := fun _ => 6%Z;
     set_N_active := fun sim _ => sim;
     move_to_com := fun sim => sim;
     set_integrator := fun sim _ => sim;
     set_dt := fun sim _ => sim;
     integrate_exact := fun sim _ => sim |}.

Definition two_frames_frames : @Frames two_frames :=
  {| sun := fun _ : @simulation two_frames => TheSun : @particle two_frames;
     add_default_primary := fun _ _ => eq_refl |}.

Definition plain_format : FloatFormat :=
  {| str_round4 := fun _ => "2453318.8875"%string |}.

(** *** Reading a float through its IEEE 754 description

    [Prim2SF] gives the sign, mantissa and exponent of a float.  A float
    is finite when it is a zero or has a mantissa; [key] orders the
    descriptions as the comparison of floats does (sign, then exponent,
    then mantissa, the two zeros together); [SFsigned sx] holds of [nan]
    and of the descriptions of sign [sx]. *)
Definition SFfinite (s : spec_float) : bool :=
  match s with
  | S754_zero _ | S754_finite _ _ _ => true
  | _ => false
  end.

Definition key (s : spec_float) : Z * Z * Z :=
  match s with
  | S754_zero _ | S754_nan => (0, 0, 0)%Z
  | S754_infinity true => (-2, 0, 0)%Z
  | S754_infinity false => (2, 0, 0)%Z
  | S754_finite true m e => (-1, - e, - Z.pos m)%Z
  | S754_finite false m e => (1, e, Z.pos m)%Z
  end.

Definition lex_lt (a b : Z * Z * Z) : Prop :=
  let '(a1, a2, a3) := a in
  let '(b1, b2, b3) := b in
  (a1 < b1 \/ (a1 = b1 /\ (a2 < b2 \/ (a2 = b2 /\ a3 < b3))))%Z.

Definition lex_eq (a b : Z * Z * Z) : Prop :=
  let '(a1, a2, a3) := a in
  let '(b1, b2, b3) := b in
  a1 = b1 /\ a2 = b2 /\ a3 = b3.


End F64.

(** ** Indexing and loops *)

Lemma index_nat {A : Type} (d : A) (l : list A) (k : nat) :
  (k < length l)%nat -> index l (Z.of_nat k) = Ok (nth k l d).
Proof.
  intros Hk. unfold index.
  destruct (Z.ltb_spec (Z.of_nat k) 0) as [Hneg | _]; [lia |].
  destruct (Z.leb_spec 0 (Z.of_nat k)) as [_ | Hneg]; [| lia].
  destruct (Z.ltb_spec (Z.of_nat k) (Z.of_nat (length l))) as [_ | Hge];
    [| lia].
  simpl. rewrite Nat2Z.id.
  rewrite (nth_error_nth' l d Hk). reflexivity.
Qed.

Lemma index_from_end {A : Type} (d : A) (l : list A) (k : nat) :
  (0 < k <= length l)%nat ->
  index l (- Z.of_nat k) = Ok (nth (length l - k) l d).
Proof.
  intros Hk. unfold index.
  destruct (Z.ltb_spec (- Z.of_nat k) 0) as [_ | Hpos]; [| lia].
  destruct (Z.leb_spec 0 (Z.of_nat (length l) + - Z.of_nat k))
    as [_ | Hneg]; [| lia].
  destruct (Z.ltb_spec (Z.of_nat (length l) + - Z.of_nat k)
                       (Z.of_nat (length l))) as [_ | Hge]; [| lia].
  simpl.
  replace (Z.to_nat (Z.of_nat (length l) + - Z.of_nat k))
    with (length l - k)%nat by lia.
  rewrite (nth_error_nth' l d); [reflexivity | lia].
Qed.

Lemma index_first {A : Type} (d : A) (l : list A) :
  l <> [] -> index l 0 = Ok (hd d l).
Proof.
  intros Hl. destruct l as [| x l]; [contradiction |].
  apply (index_nat d (x :: l) 0). simpl. lia.
Qed.

Lemma last_as_nth {A : Type} (d : A) (l : list A) :
  last l d = nth (length l - 1) l d.
Proof.
  induction l as [| x l IH]; [reflexivity |].
  destruct l as [| y l]; [reflexivity |].
  change (last (x :: y :: l) d) with (last (y :: l) d).
  rewrite IH. simpl. now rewrite Nat.sub_0_r.
Qed.

Lemma index_last {A : Type} (d : A) (l : list A) :
  l <> [] -> index l (-1) = Ok (last l d).
Proof.
  intros Hl.
  assert (Hlen : (0 < length l)%nat)
    by (destruct l; [contradiction | simpl; lia]).
  change (-1)%Z with (- Z.of_nat 1)%Z.
  rewrite (index_from_end d) by lia.
  now rewrite last_as_nth.
Qed.

Lemma index_out_of_range {A : Type} (l : list A) (k : nat) :
  (length l <= k)%nat -> index l (Z.of_nat k) = Raise IndexError.
Proof.
  intros Hk. unfold index.
  destruct (Z.ltb_spec (Z.of_nat k) 0) as [Hneg | _]; [lia |].
  destruct (Z.ltb_spec (Z.of_nat k) (Z.of_nat (length l))) as [Hlt | _];
    [lia |].
  now rewrite andb_false_r.
Qed.

(** A loop that appends one computed value per item. *)
Lemma for_each_append {A B : Type} (g : A -> result B) (g' : A -> B)
      (xs : list A) (acc : list B) :
  Forall (fun x => g x = Ok (g' x)) xs ->
  for_each (fun s x => y <- g x ;; Ok (s ++ [y])) xs acc
  = Ok (acc ++ map g' xs).
Proof.
  intros Hall. revert acc.
  induction Hall as [| x xs Hx _ IH]; intros acc; simpl.
  - now rewrite app_nil_r.
  - rewrite Hx. simpl. rewrite IH, <- app_assoc. reflexivity.
Qed.

Lemma map_each_ok {A B : Type} (g : A -> result B) (g' : A -> B)
      (xs : list A) :
  Forall (fun x => g x = Ok (g' x)) xs ->
  map_each g xs = Ok (map g' xs).
Proof.
  induction 1 as [| x xs Hx _ IH]; simpl; [reflexivity |].
  rewrite Hx. simpl. rewrite IH. reflexivity.
Qed.

(** ** Arrays: entries of the results of the numpy operations *)

Lemma zip_with_length {A B C : Type} (f : A -> B -> C) u v :
  length (zip_with f u v) = Nat.min (length u) (length v).
Proof. unfold zip_with. now rewrite length_map, length_combine. Qed.

Lemma zip_with_nth {A B C : Type} (f : A -> B -> C) da db dc u v k :
  (k < length u)%nat -> (k < length v)%nat ->
  nth k (zip_with f u v) dc = f (nth k u da) (nth k v db).
Proof.
  revert v k. induction u as [| x u IH]; intros [| y v] k Hu Hv;
    simpl in *; try lia.
  destruct k as [| k]; [reflexivity |].
  apply IH; lia.
Qed.

Lemma fold_rows_length (f : R -> R -> R) m rs r :
  width m rs -> length r = m ->
  length (fold_left (zip_with f) rs r) = m.
Proof.
  intros Hrs. revert r.
  induction Hrs as [| r' rs Hr' _ IH]; intros r Hr; simpl; [exact Hr |].
  apply IH. rewrite zip_with_length. lia.
Qed.

Lemma fold_rows_nth (f : R -> R -> R) m rs r j :
  width m rs -> length r = m -> (j < m)%nat ->
  nth j (fold_left (zip_with f) rs r) 0
  = fold_left f (Spec.column j rs) (nth j r 0).
Proof.
  intros Hrs. revert r.
  induction Hrs as [| r' rs Hr' _ IH]; intros r Hr Hj; simpl;
    [reflexivity |].
  rewrite IH by (rewrite ?zip_with_length; lia).
  rewrite (zip_with_nth f 0 0 0) by lia. reflexivity.
Qed.

Lemma fold_left_min xs x : fold_left Rmin xs x = fold_right Rmin x xs.
Proof.
  apply fold_symmetric.
  - intros u v w. apply Rmin_assoc.
  - intros y. apply Rmin_comm.
Qed.

Lemma fold_left_max xs x : fold_left Rmax xs x = fold_right Rmax x xs.
Proof.
  apply fold_symmetric.
  - intros u v w. apply Rmax_assoc.
  - intros y. apply Rmax_comm.
Qed.

Lemma fold_left_plus xs x : fold_left Rplus xs x = x + Spec.total xs.
Proof.
  revert x. induction xs as [| y xs IH]; intros x; simpl.
  - unfold Spec.total. simpl. lra.
  - rewrite IH. unfold Spec.total. simpl. lra.
Qed.

Lemma column_length j (a : array2) : length (Spec.column j a) = length a.
Proof. unfold Spec.column. apply length_map. Qed.

Lemma column_nth j k (a : array2) :
  nth k (Spec.column j a) 0 = nth j (nth k a []) 0.
Proof.
  unfold Spec.column.
  destruct (Nat.lt_ge_cases k (length a)) as [Hk | Hk].
  - rewrite (nth_indep _ 0 (nth j [] 0)) by (now rewrite length_map).
    exact (map_nth (fun r => nth j r 0) a [] k).
  - rewrite (nth_overflow (map _ a)) by (now rewrite length_map).
    rewrite (nth_overflow a) by assumption.
    now destruct j.
Qed.

Lemma column_cols_from1 j (a : array2) :
  Spec.column j (cols_from1 a) = Spec.column (S j) a.
Proof.
  unfold Spec.column, cols_from1. rewrite map_map.
  apply map_ext. intros [| x r]; [now destruct j | reflexivity].
Qed.

Lemma width_cols_from1 m (a : array2) :
  width (S m) a -> width m (cols_from1 a).
Proof.
  unfold width, cols_from1. intros Ha. apply Forall_map.
  eapply Forall_impl; [| exact Ha].
  intros [| x r] Hr; simpl in *; lia.
Qed.

Lemma width_diffs m (a : array2) :
  width m a -> width m (sub2 (rows_from1 a) (rows_but_last a)).
Proof.
  unfold width, sub2, rows_from1, rows_but_last.
  induction a as [| r1 a IH]; intros Ha; [constructor |].
  destruct a as [| r2 a]; [constructor |].
  inversion Ha as [| ? ? Hr1 Ha']; subst.
  inversion Ha' as [| ? ? Hr2 _]; subst.
  change (Forall (fun r => length r = length r1)
            (sub1 r2 r1 :: zip_with sub1 (skipn 1 (r2 :: a))
                                         (removelast (r2 :: a)))).
  constructor.
  - unfold sub1. rewrite zip_with_length. lia.
  - apply IH. exact Ha'.
Qed.

Lemma length_diffs (a : array2) :
  length (sub2 (rows_from1 a) (rows_but_last a)) = (length a - 1)%nat.
Proof.
  unfold sub2, rows_from1, rows_but_last.
  rewrite zip_with_length, length_skipn.
  destruct a as [| r a]; [reflexivity |].
  rewrite removelast_firstn_len, length_firstn. simpl. lia.
Qed.

Lemma column_diffs m j (a : array2) :
  width m a -> (j < m)%nat ->
  Spec.column j (sub2 (rows_from1 a) (rows_but_last a))
  = Spec.first_differences (Spec.column j a).
Proof.
  unfold width, sub2, rows_from1, rows_but_last. intros Ha Hj.
  induction a as [| r1 a IH]; [reflexivity |].
  destruct a as [| r2 a]; [reflexivity |].
  inversion Ha as [| ? ? Hr1 Ha']; subst.
  inversion Ha' as [| ? ? Hr2 _]; subst.
  change (nth j (sub1 r2 r1) 0
          :: Spec.column j (zip_with sub1 (skipn 1 (r2 :: a))
                                          (removelast (r2 :: a)))
          = (nth j r2 0 - nth j r1 0)
          :: Spec.first_differences (Spec.column j (r2 :: a))).
  f_equal.
  - unfold sub1. apply zip_with_nth; lia.
  - apply IH. exact Ha'.
Qed.

Lemma take_column_ok m k (a : array2) :
  width m a -> (k < m)%nat ->
  take_column a (Z.of_nat k) = Ok (Spec.column k a).
Proof.
  intros Ha Hk. unfold take_column, Spec.column.
  apply map_each_ok.
  eapply Forall_impl; [| exact Ha].
  intros r Hr. cbv beta in Hr. apply index_nat. lia.
Qed.

Lemma length_div_newaxis (a : array2) (t : array1) :
  length a = length t -> length (div_newaxis a t) = length a.
Proof. intros H. unfold div_newaxis. rewrite zip_with_length. lia. Qed.

Lemma width_div_newaxis m (a : array2) (t : array1) :
  width m a -> width m (div_newaxis a t).
Proof.
  unfold width, div_newaxis. intros Ha. revert t.
  induction Ha as [| r a Hr _ IH]; intros [| d t]; try constructor.
  - simpl. now rewrite length_map.
  - apply IH.
Qed.

Lemma column_div_newaxis j (a : array2) (t : array1) :
  Spec.column j (div_newaxis a t) = zip_with Rdiv (Spec.column j a) t.
Proof.
  unfold div_newaxis. revert t.
  induction a as [| r a IH]; intros [| d t]; try reflexivity.
  change (nth j (map (fun x => x / d) r) 0
          :: Spec.column j (zip_with (fun row d => map (fun x => x / d) row)
                                     a t)
          = nth j r 0 / d :: zip_with Rdiv (Spec.column j a) t).
  f_equal; [| apply IH].
  replace 0 with (0 / d) at 1 by (unfold Rdiv; ring).
  apply (map_nth (fun x => x / d)).
Qed.

(** ** The reductions along axis 0, column by column *)

Lemma amin_axis0_spec m (a : array2) :
  a <> [] -> width m a ->
  exists v, amin_axis0 a = Ok v /\ length v = m /\
            forall j, (j < m)%nat ->
                      nth j v 0 = Spec.minimum (Spec.column j a).
Proof.
  intros Hne Ha. destruct a as [| r rs]; [contradiction |].
  inversion Ha as [| ? ? Hr Hrs]; subst.
  eexists. split; [reflexivity |]. split.
  - now apply fold_rows_length.
  - intros j Hj. rewrite (fold_rows_nth Rmin (length r))
      by first [exact Hrs | reflexivity | assumption].
    apply fold_left_min.
Qed.

Lemma amax_axis0_spec m (a : array2) :
  a <> [] -> width m a ->
  exists v, amax_axis0 a = Ok v /\ length v = m /\
            forall j, (j < m)%nat ->
                      nth j v 0 = Spec.maximum (Spec.column j a).
Proof.
  intros Hne Ha. destruct a as [| r rs]; [contradiction |].
  inversion Ha as [| ? ? Hr Hrs]; subst.
  eexists. split; [reflexivity |]. split.
  - now apply fold_rows_length.
  - intros j Hj. rewrite (fold_rows_nth Rmax (length r))
      by first [exact Hrs | reflexivity | assumption].
    apply fold_left_max.
Qed.

Lemma mean_axis0_length m (a : array2) :
  a <> [] -> width m a -> length (mean_axis0 a) = m.
Proof.
  intros Hne Ha. destruct a as [| r rs]; [contradiction |].
  inversion Ha as [| ? ? Hr Hrs]; subst.
  unfold mean_axis0, add_reduce_axis0. rewrite length_map.
  now apply fold_rows_length.
Qed.

Lemma mean_axis0_nth m (a : array2) j :
  a <> [] -> width m a -> (j < m)%nat ->
  nth j (mean_axis0 a) 0 = Spec.mean (Spec.column j a).
Proof.
  intros Hne Ha Hj. destruct a as [| r rs]; [contradiction |].
  inversion Ha as [| ? ? Hr Hrs]; subst.
  unfold mean_axis0, add_reduce_axis0, Spec.mean.
  rewrite column_length.
  replace 0 with (0 / INR (length (r :: rs))) at 1 by (unfold Rdiv; ring).
  rewrite (map_nth (fun s => s / INR (length (r :: rs)))).
  f_equal.
  rewrite (fold_rows_nth Rplus (length r))
      by first [exact Hrs | reflexivity | assumption].
  apply fold_left_plus.
Qed.

Lemma std_axis0_length m (a : array2) :
  a <> [] -> width m a -> length (std_axis0 a) = m.
Proof.
  intros Hne Ha. unfold std_axis0. rewrite length_map.
  apply mean_axis0_length.
  - destruct a; [contradiction | discriminate].
  - unfold width. rewrite !Forall_map.
    eapply Forall_impl; [| exact Ha].
    intros r Hr. cbv beta in *. unfold sub1.
    rewrite length_map, zip_with_length, (mean_axis0_length m) by assumption.
    lia.
Qed.

Lemma std_axis0_nth m (a : array2) j :
  a <> [] -> width m a -> (j < m)%nat ->
  nth j (std_axis0 a) 0 = Spec.population_stdev (Spec.column j a).
Proof.
  intros Hne Ha Hj. unfold std_axis0.
  rewrite <- sqrt_0 at 1. rewrite map_nth.
  unfold Spec.population_stdev. f_equal.
  rewrite (mean_axis0_nth m); cycle 1.
  - destruct a; [contradiction | discriminate].
  - unfold width. rewrite !Forall_map.
    eapply Forall_impl; [| exact Ha].
    intros r Hr. cbv beta in *. unfold sub1.
    rewrite length_map, zip_with_length, (mean_axis0_length m) by assumption.
    lia.
  - exact Hj.
  - unfold Spec.mean at 1. unfold Spec.squared_deviations.
    rewrite !column_length, !length_map. f_equal. f_equal.
    unfold Spec.column. rewrite !map_map.
    apply map_ext_Forall.
    eapply Forall_impl; [| exact Ha].
    intros r Hr. cbv beta in *.
    replace 0 with (0 * 0) at 1 by ring.
    rewrite (map_nth (fun d => d * d)).
    unfold sub1.
    rewrite (zip_with_nth Rminus 0 0 0)
      by (rewrite ?(mean_axis0_length m); assumption || lia).
    rewrite (mean_axis0_nth m) by assumption.
    reflexivity.
Qed.

(** ** [parse]: the loop that orders the features *)

Lemma gather_features (arrs : list array1) :
  Forall (fun u => (5 <= length u)%nat) arrs ->
  for_each (fun features i =>
    for_each (fun features u =>
      x <- index u i ;; Ok (features ++ [x])) arrs features)
    [0; 1; 2; 3; 4]%Z []
  = Ok (flat_map (fun k => map (fun u => nth k u 0) arrs)
                 [0; 1; 2; 3; 4]%nat).
Proof.
  intros Hlen.
  assert (Hin : forall (k : nat) acc, (k < 5)%nat ->
            for_each (fun features u =>
              x <- index u (Z.of_nat k) ;; Ok (features ++ [x])) arrs acc
            = Ok (acc ++ map (fun u => nth k u 0) arrs)).
  { intros k acc Hk.
    apply (for_each_append (fun u => index u (Z.of_nat k))).
    eapply Forall_impl; [| exact Hlen].
    intros u Hu. cbv beta in Hu. apply index_nat. lia. }
  cbn [for_each flat_map].
  rewrite (Hin 0%nat) by lia. cbn [bind].
  rewrite (Hin 1%nat) by lia. cbn [bind].
  rewrite (Hin 2%nat) by lia. cbn [bind].
  rewrite (Hin 3%nat) by lia. cbn [bind].
  rewrite (Hin 4%nat) by lia. cbn [bind].
  rewrite app_nil_r, <- !app_assoc. reflexivity.
Qed.

Lemma nth_skipn1 j (r : list R) : nth j (skipn 1 r) 0 = nth (S j) r 0.
Proof. destruct r; [now destruct j | reflexivity]. Qed.

Lemma initial_column j (data : array2) :
  nth j (skipn 1 (hd [] data)) 0 = Spec.initial (Spec.column (S j) data).
Proof. rewrite nth_skipn1. now destruct data. Qed.

Lemma final_column j (data : array2) :
  data <> [] ->
  nth j (skipn 1 (last data [])) 0 = Spec.final (Spec.column (S j) data).
Proof.
  intros Hne. rewrite nth_skipn1. unfold Spec.final, Spec.column.
  destruct (exists_last Hne) as [front [r ->]].
  rewrite map_app. cbn [map]. now rewrite !last_last.
Qed.

(** ** [parse] returns the specified vector *)

Lemma rates_column n m (data : array2) j :
  shape data n (S m) -> (j < m)%nat ->
  let diffs := sub2 (rows_from1 data) (rows_but_last data) in
  Spec.column j (div_newaxis (cols_from1 diffs) (Spec.column 0 diffs))
  = Spec.rates (Spec.column 0 data) (Spec.column (S j) data).
Proof.
  intros [Hn Hw] Hj diffs.
  rewrite column_div_newaxis, column_cols_from1.
  unfold diffs, Spec.rates.
  rewrite !(column_diffs (S m)) by (assumption || lia).
  reflexivity.
Qed.

Lemma parse_returns n m (data : array2) :
  shape data n m -> (2 <= n)%nat -> (6 <= m)%nat ->
  parse data = Ok [Spec.feature_vector data].
Proof.
  intros Hshape Hn2 Hm6. destruct m as [| m]; [lia |].
  pose proof Hshape as [Hn Hw].
  assert (Hne : data <> []) by (intros ->; simpl in Hn; lia).
  pose proof (width_cols_from1 m data Hw) as Hbody.
  assert (Hbne : cols_from1 data <> [])
    by (unfold cols_from1; destruct data; [contradiction | discriminate]).
  destruct (amin_axis0_spec m _ Hbne Hbody) as (mins & Emins & Lmins & Nmins).
  destruct (amax_axis0_spec m _ Hbne Hbody)
    as (maxes & Emaxes & Lmaxes & Nmaxes).
  pose proof (rates_column n m data) as Hrates. cbv zeta in Hrates.
  set (diffs := sub2 (rows_from1 data) (rows_but_last data)) in *.
  assert (Hdw : width (S m) diffs) by now apply width_diffs.
  assert (Hdl : length diffs = (n - 1)%nat)
    by (subst n; apply length_diffs).
  assert (Edt : take_column diffs 0 = Ok (Spec.column 0 diffs))
    by (apply (take_column_ok (S m) 0); [assumption | lia]).
  set (dxdt := div_newaxis (cols_from1 diffs) (Spec.column 0 diffs)) in *.
  assert (Hxw : width m dxdt)
    by (apply width_div_newaxis, width_cols_from1; assumption).
  assert (Hxl : length dxdt = (n - 1)%nat).
  { unfold dxdt, cols_from1.
    rewrite length_div_newaxis; rewrite length_map; rewrite ?column_length;
      congruence. }
  assert (Hxne : dxdt <> [])
    by (intros E; rewrite E in Hxl; simpl in Hxl; lia).
  destruct (amin_axis0_spec m _ Hxne Hxw)
    as (rmins & Ermins & Lrmins & Nrmins).
  destruct (amax_axis0_spec m _ Hxne Hxw)
    as (rmaxes & Ermaxes & Lrmaxes & Nrmaxes).
  unfold parse.
  rewrite (index_first [] data Hne), (index_last [] data Hne). cbn [bind].
  rewrite Emins, Emaxes. cbn [bind]. fold diffs. rewrite Edt. cbn [bind].
  fold dxdt. rewrite Ermins, Ermaxes. cbn [bind].
  rewrite gather_features.
  2:{ assert (Hhd : length (hd [] data) = S m).
      { destruct data as [| r data]; [contradiction |].
        now inversion Hw. }
      assert (Hlast : length (last data []) = S m).
      { destruct (exists_last Hne) as [front [r E]]. rewrite E in *.
        rewrite last_last. apply Forall_app in Hw as [_ Hr].
        now inversion Hr. }
      repeat constructor; unfold sub1;
        rewrite ?length_skipn, ?zip_with_length,
          ?(mean_axis0_length m), ?(std_axis0_length m) by assumption;
        lia. }
  cbn [bind]. do 2 f_equal.
  unfold Spec.feature_vector, Spec.element_features.
  cbn [flat_map map app].
  assert (Hdels : forall j, (j < m)%nat ->
            nth j (sub1 maxes mins) 0
            = Spec.maximum (Spec.column (S j) data)
              - Spec.minimum (Spec.column (S j) data)).
  { intros j Hj. unfold sub1.
    rewrite (zip_with_nth Rminus 0 0 0), Nmins, Nmaxes, column_cols_from1
      by lia.
    reflexivity. }
  assert (Hrdels : forall j, (j < m)%nat ->
            nth j (sub1 rmaxes rmins) 0
            = Spec.maximum (Spec.rates (Spec.column 0 data)
                                       (Spec.column (S j) data))
              - Spec.minimum (Spec.rates (Spec.column 0 data)
                                         (Spec.column (S j) data))).
  { intros j Hj. unfold sub1.
    rewrite (zip_with_nth Rminus 0 0 0), Nrmins, Nrmaxes, (Hrates j)
      by (assumption || lia).
    reflexivity. }
  repeat match goal with
         | |- _ :: _ = _ :: _ => f_equal
         end;
    first
      [ apply initial_column
      | apply final_column; exact Hne
      | rewrite Nmins, column_cols_from1 by lia; reflexivity
      | rewrite Nmaxes, column_cols_from1 by lia; reflexivity
      | rewrite (mean_axis0_nth m), column_cols_from1
          by (assumption || lia); reflexivity
      | rewrite (std_axis0_nth m), column_cols_from1
          by (assumption || lia); reflexivity
      | apply Hdels; lia
      | apply Hrdels; lia
      | rewrite Nrmins, Hrates by (assumption || lia); reflexivity
      | rewrite Nrmaxes, Hrates by (assumption || lia); reflexivity
      | rewrite (mean_axis0_nth m dxdt), Hrates
          by (assumption || lia); reflexivity ].
Qed.

(** ** Facts about the specification's definitions *)

Lemma first_differences_length (x : list R) :
  length (Spec.first_differences x) = (length x - 1)%nat.
Proof.
  induction x as [| u x IH]; [reflexivity |].
  destruct x as [| v x]; [reflexivity |].
  change (S (length (Spec.first_differences (v :: x)))
          = (length (u :: v :: x) - 1)%nat).
  rewrite IH. simpl. lia.
Qed.

Lemma first_differences_nth (x : list R) k :
  (S k < length x)%nat ->
  nth k (Spec.first_differences x) 0 = nth (S k) x 0 - nth k x 0.
Proof.
  revert k. induction x as [| u x IH]; intros k Hk; [simpl in Hk; lia |].
  destruct x as [| v x]; [simpl in Hk; lia |].
  destruct k as [| k]; [reflexivity |].
  change (nth k (Spec.first_differences (v :: x)) 0
          = nth (S k) (v :: x) 0 - nth k (v :: x) 0).
  apply IH. simpl in *. lia.
Qed.

Lemma rates_length (t x : list R) :
  length t = length x ->
  length (Spec.rates t x) = (length x - 1)%nat.
Proof.
  intros E. unfold Spec.rates.
  rewrite zip_with_length, !first_differences_length. lia.
Qed.

Lemma rates_nth (t x : list R) k :
  length t = length x -> (S k < length x)%nat ->
  nth k (Spec.rates t x) 0
  = (nth (S k) x 0 - nth k x 0) / (nth (S k) t 0 - nth k t 0).
Proof.
  intros E Hk. unfold Spec.rates.
  rewrite (zip_with_nth Rdiv 0 0 0)
    by (rewrite first_differences_length; lia).
  rewrite !first_differences_nth by lia. reflexivity.
Qed.

Lemma feature_vector_length (data : array2) :
  length (Spec.feature_vector data) = 55%nat.
Proof. reflexivity. Qed.

Lemma feature_vector_slot (data : array2) j k :
  (j < 5)%nat -> (k < 11)%nat ->
  nth (Spec.slot j k) (Spec.feature_vector data) 0
  = nth k (Spec.element_features (Spec.column 0 data)
                                 (Spec.column (S j) data)) 0.
Proof.
  intros Hj Hk.
  do 5 (destruct j as [| j];
        [do 11 (destruct k as [| k]; [reflexivity |]); lia |]).
  lia.
Qed.

Lemma steady_table_shape n : shape (steady_table n) n 6.
Proof.
  split.
  - unfold steady_table. now rewrite length_map, length_seq.
  - unfold width, steady_table. apply Forall_map, Forall_forall.
    reflexivity.
Qed.

Lemma drifting_table_shape n : shape (drifting_table n) n 6.
Proof.
  split.
  - unfold drifting_table. now rewrite length_map, length_seq.
  - unfold width, drifting_table. apply Forall_map, Forall_forall.
    reflexivity.
Qed.

(** ** The claims about [parse] *)

(** C1.  For every table of 101 rows and 6 columns (column 0 the time,
    columns 1 to 5 the elements a, e, i, Omega, omega), [parse] returns one
    row of exactly 55 values; statistic [k] of element [j] sits at position
    [11 j + k], the statistics being, in this order: initial (row 0), final
    (last row), min, mean, max, stdev, range = max - min, rate_min,
    rate_mean, rate_max, rate_range; rate [k] of an element is its
    difference between rows [k+1] and [k] divided by the difference of the
    times of these rows. *)
Theorem parse_feature_vector (data : array2) :
  shape data 101 6 ->
  parse data = Ok [Spec.feature_vector data] /\
  length (Spec.feature_vector data) = 55%nat /\
  (forall j k, (j < 5)%nat -> (k < 11)%nat ->
     nth (Spec.slot j k) (Spec.feature_vector data) 0
     = nth k (Spec.element_features (Spec.column 0 data)
                                    (Spec.column (S j) data)) 0) /\
  (forall j k, (j < 5)%nat -> (k < 100)%nat ->
     nth k (Spec.rates (Spec.column 0 data) (Spec.column (S j) data)) 0
     = (nth (S j) (nth (S k) data []) 0 - nth (S j) (nth k data []) 0)
       / (nth 0 (nth (S k) data []) 0 - nth 0 (nth k data []) 0)).
Proof.
  intros Hshape. split; [| split; [| split]].
  - apply (parse_returns 101 6); [exact Hshape | lia | lia].
  - apply feature_vector_length.
  - intros j k. apply feature_vector_slot.
  - intros j k Hj Hk. destruct Hshape as [Hn _].
    rewrite rates_nth by (rewrite !column_length; lia).
    now rewrite !column_nth.
Qed.

Lemma parse_feature_vector_witness :
  shape (drifting_table 101) 101 6 /\
  parse (drifting_table 101) = Ok [Spec.feature_vector (drifting_table 101)].
Proof.
  split.
  - apply drifting_table_shape.
  - apply (parse_feature_vector (drifting_table 101)).
    apply drifting_table_shape.
Defined.

(** C9.  [parse] does not validate the shape of its input: on every array of
    at least 2 rows and at least 6 columns, whatever the number of rows, it
    raises nothing and returns one row of 55 values, the statistics being
    taken over the rows present ([n] values per column, [n - 1] rates). *)
Theorem parse_any_row_count (n m : nat) (data : array2) :
  (2 <= n)%nat -> (6 <= m)%nat -> shape data n m ->
  ~ raises (parse data) /\
  parse data = Ok [Spec.feature_vector data] /\
  length (Spec.feature_vector data) = 55%nat /\
  (forall j, length (Spec.column j data) = n) /\
  (forall j, length (Spec.rates (Spec.column 0 data) (Spec.column j data))
             = (n - 1)%nat).
Proof.
  intros Hn Hm Hshape.
  pose proof (parse_returns n m data Hshape Hn Hm) as E.
  split; [| split; [| split; [| split]]].
  - intros [ex Hex]. rewrite E in Hex. discriminate.
  - exact E.
  - apply feature_vector_length.
  - intros j. rewrite column_length. apply Hshape.
  - intros j. rewrite rates_length; rewrite !column_length;
      destruct Hshape as [-> _]; reflexivity.
Qed.

Lemma parse_any_row_count_witness :
  ~ raises (parse (steady_table 50)) /\
  parse (steady_table 50) = Ok [Spec.feature_vector (steady_table 50)].
Proof.
  destruct (parse_any_row_count 50 6 (steady_table 50)) as (H1 & H2 & _).
  - lia.
  - lia.
  - apply steady_table_shape.
  - split; [exact H1 | exact H2].
Defined.

(** ** The standard deviation *)

Lemma total_nonneg (x : list R) :
  Forall (fun v => 0 <= v) x -> 0 <= Spec.total x.
Proof.
  unfold Spec.total.
  induction 1 as [| v x Hv _ IH]; simpl; lra.
Qed.

Lemma squared_deviations_nonneg (x : list R) :
  0 <= Spec.total (Spec.squared_deviations x).
Proof.
  apply total_nonneg. unfold Spec.squared_deviations.
  apply Forall_map, Forall_forall. intros v _. cbv beta.
  set (d := v - Spec.mean x). nra.
Qed.

(** C7.  In every feature vector of a 101-row table the stdev entry of each
    element is the population standard deviation of its 101 values: the
    square root of the sum of squared deviations from the mean (the sum of
    the values over 101) divided by 101.  It is not the sample standard
    deviation, whose divisor is 100: the entry is [sqrt (100 / 101)] times
    that. *)
Theorem stdev_is_population (data : array2) (j : nat) :
  shape data 101 6 -> (j < 5)%nat ->
  let x := Spec.column (S j) data in
  let mu := Spec.total x / 101 in
  exists row,
    parse data = Ok [row] /\
    nth (Spec.slot j 5) row 0
    = sqrt (Spec.total (map (fun v => (v - mu) * (v - mu)) x) / 101) /\
    nth (Spec.slot j 5) row 0 = Spec.population_stdev x /\
    Spec.sample_stdev x
    = sqrt (Spec.total (map (fun v => (v - mu) * (v - mu)) x) / 100) /\
    nth (Spec.slot j 5) row 0 = sqrt (100 / 101) * Spec.sample_stdev x.
Proof.
  intros Hshape Hj x mu.
  exists (Spec.feature_vector data).
  assert (Hlen : INR (length x) = 101).
  { unfold x. rewrite column_length. destruct Hshape as [-> _].
    rewrite INR_IZR_INZ. reflexivity. }
  assert (Hpop : Spec.population_stdev x
                 = sqrt (Spec.total (map (fun v => (v - mu) * (v - mu)) x)
                         / 101)).
  { unfold Spec.population_stdev, Spec.squared_deviations, Spec.mean.
    rewrite Hlen. reflexivity. }
  assert (Hsam : Spec.sample_stdev x
                 = sqrt (Spec.total (map (fun v => (v - mu) * (v - mu)) x)
                         / 100)).
  { unfold Spec.sample_stdev, Spec.squared_deviations, Spec.mean.
    rewrite Hlen. replace (101 - 1) with 100 by lra. reflexivity. }
  assert (Hslot : nth (Spec.slot j 5) (Spec.feature_vector data) 0
                  = Spec.population_stdev x).
  { rewrite feature_vector_slot by lia. reflexivity. }
  split; [apply (parse_returns 101 6); [exact Hshape | lia | lia] |].
  split; [now rewrite Hslot |].
  split; [exact Hslot |].
  split; [exact Hsam |].
  rewrite Hslot, Hpop, Hsam.
  pose proof (squared_deviations_nonneg x) as Hnn.
  unfold Spec.squared_deviations, Spec.mean in Hnn. rewrite Hlen in Hnn.
  fold mu in Hnn.
  rewrite <- sqrt_mult_alt by lra.
  f_equal. field.
Qed.

Lemma stdev_is_population_witness :
  shape (drifting_table 101) 101 6 /\ (0 < 5)%nat /\
  exists row,
    parse (drifting_table 101) = Ok [row] /\
    nth (Spec.slot 0 5) row 0
    = Spec.population_stdev (Spec.column 1 (drifting_table 101)).
Proof.
  split; [apply drifting_table_shape |].
  split; [lia |].
  destruct (stdev_is_population (drifting_table 101) 0)
    as (row & E & _ & H & _).
  - apply drifting_table_shape.
  - lia.
  - exists row. split; [exact E | exact H].
Defined.

(** ** Increasing times *)


(** ** When [parse] returns, the table had 2 rows and 6 columns at least *)

Lemma for_each_raises {S A : Type} (body : S -> A -> result S)
      (xs : list A) (x : A) (s : S) :
  In x xs -> (forall s', raises (body s' x)) ->
  raises (for_each body xs s).
Proof.
  intros Hin Hx. revert s.
  induction xs as [| y xs IH]; intros s; [contradiction |].
  simpl. destruct Hin as [-> | Hin].
  - destruct (Hx s) as [ex ->]. now exists ex.
  - destruct (body s y) as [s' | ex]; [apply IH, Hin | now exists ex].
Qed.

Lemma gather_raises (u : array1) (rest : list array1) :
  (length u < 5)%nat ->
  raises (for_each (fun features i =>
            for_each (fun features v =>
              x <- index v i ;; Ok (features ++ [x])) (u :: rest) features)
            [0; 1; 2; 3; 4]%Z []).
Proof.
  intros Hu.
  apply (for_each_raises _ _ (Z.of_nat (length u))).
  - remember (length u) as l eqn:El. clear El.
    do 5 (destruct l as [| l]; [simpl; tauto |]). lia.
  - intros s'. cbn [for_each].
    rewrite index_out_of_range by lia. exists IndexError. reflexivity.
Qed.

Lemma parse_ok_shape m (data : array2) (v : array2) :
  width m data -> parse data = Ok v ->
  (2 <= length data)%nat /\ (6 <= m)%nat.
Proof.
  intros Hw E.
  destruct data as [| r0 data]; [discriminate E |].
  destruct data as [| r1 data]; [discriminate E |].
  split; [simpl; lia |].
  destruct (le_lt_dec 6 m) as [Hm | Hm]; [exact Hm | exfalso].
  set (d := r0 :: r1 :: data) in *.
  assert (Hne : d <> []) by discriminate.
  unfold parse in E.
  rewrite (index_first [] d Hne), (index_last [] d Hne) in E.
  cbn [bind] in E.
  destruct (amin_axis0 (cols_from1 d)); [| discriminate E].
  destruct (amax_axis0 (cols_from1 d)); [| discriminate E].
  cbn [bind] in E.
  destruct (take_column _ 0); [| discriminate E]. cbn [bind] in E.
  destruct (amin_axis0 _); [| discriminate E].
  destruct (amax_axis0 _); [| discriminate E].
  cbn [bind] in E.
  assert (Hlen : (length (skipn 1 (hd [] d)) < 5)%nat).
  { rewrite length_skipn. inversion Hw as [| ? ? Hr0 _]; subst.
    simpl. lia. }
  epose proof (gather_raises (skipn 1 (hd [] d)) _ Hlen) as [ex Hex].
  rewrite Hex in E. discriminate E.
Qed.

(** ** [compute_from_file]: the columns it reads *)

Lemma concatenate_newaxis (f : list R -> list R) c (data_t : array2) :
  concatenate_axis1 (map f data_t) (newaxis (Spec.column c data_t))
  = map (fun r => f r ++ [nth c r 0]) data_t.
Proof.
  unfold concatenate_axis1, newaxis, Spec.column, zip_with.
  induction data_t as [| r data_t IH]; [reflexivity |].
  simpl. now rewrite IH.
Qed.

Lemma index_map_of_nat (co : list nat) i :
  (i < length co)%nat ->
  index (map Z.of_nat co) (Z.of_nat i) = Ok (Z.of_nat (nth i co 0%nat)).
Proof.
  intros Hi. rewrite (index_nat 0%Z) by (now rewrite length_map).
  f_equal. exact (map_nth Z.of_nat co 0%nat i).
Qed.

Lemma sort_columns_loop m (data_t : array2) (co ixs : list nat)
      (f : list R -> list R) :
  width m data_t ->
  Forall (fun i => (i < length co)%nat) ixs ->
  Forall (fun i => (nth i co 0 < m)%nat) ixs ->
  for_each (fun data i =>
    ci <- index (map Z.of_nat co) i ;;
    col <- take_column data_t ci ;;
    Ok (concatenate_axis1 data (newaxis col)))
    (map Z.of_nat ixs) (map f data_t)
  = Ok (map (fun r => f r ++ map (fun i => nth (nth i co 0%nat) r 0) ixs)
            data_t).
Proof.
  intros Hw Hin. revert f.
  induction Hin as [| i ixs Hi _ IH]; intros f Hcol.
  - simpl. f_equal. apply map_ext. intros r. now rewrite app_nil_r.
  - inversion Hcol as [| ? ? Hc Hcol']; subst.
    cbn [map for_each].
    rewrite index_map_of_nat by exact Hi. cbn [bind].
    rewrite (take_column_ok m) by assumption. cbn [bind].
    rewrite concatenate_newaxis, IH by exact Hcol'.
    f_equal. apply map_ext. intros r. now rewrite <- app_assoc.
Qed.

Lemma sort_columns_picks m (data_t : array2) (co : list nat) :
  width m data_t -> co <> [] ->
  Forall (fun i => (i < length co)%nat) (skipn 1 co) ->
  Forall (fun c => (c < m)%nat) (picked_columns co) ->
  sort_columns data_t (map Z.of_nat co)
  = Ok (map (fun r => map (fun c => nth c r 0) (picked_columns co)) data_t).
Proof.
  intros Hw Hne Hin Hpick. unfold sort_columns.
  unfold picked_columns in Hpick.
  apply Forall_cons_iff in Hpick as [Hc0 Hrest].
  apply Forall_map in Hrest.
  rewrite (index_first 0%Z) by (destruct co; [contradiction | discriminate]).
  cbn [bind].
  replace (hd 0%Z (map Z.of_nat co)) with (Z.of_nat (hd 0%nat co))
    by (now destruct co).
  rewrite (take_column_ok m) by assumption. cbn [bind].
  rewrite skipn_map.
  unfold newaxis, Spec.column. rewrite map_map.
  rewrite (sort_columns_loop m) by assumption.
  f_equal. apply map_ext. intros r.
  unfold picked_columns. cbn [map app]. now rewrite map_map.
Qed.

(** With the default order, and with a and e swapped, the block reads the
    columns 0 to 5 in their order. *)
Lemma sort_columns_identity m (data_t : array2) (co : list Z) :
  width m data_t -> (6 <= m)%nat ->
  co = default_col_order \/ co = swapped_col_order ->
  sort_columns data_t co
  = Ok (map (fun r => map (fun c => nth c r 0) [0; 1; 2; 3; 4; 5]%nat)
            data_t).
Proof.
  intros Hw Hm [-> | ->].
  - apply (sort_columns_picks m data_t [0; 1; 2; 3; 4; 5]%nat);
      [exact Hw | discriminate | ..].
    + repeat constructor.
    + repeat constructor; simpl; lia.
  - apply (sort_columns_picks m data_t [0; 2; 1; 3; 4; 5]%nat);
      [exact Hw | discriminate | ..].
    + repeat constructor.
    + repeat constructor; simpl; lia.
Qed.

Lemma sorted_shape n m (a : array2) :
  shape a n m ->
  shape (map (fun r => map (fun c => nth c r 0) [0; 1; 2; 3; 4; 5]%nat) a)
        n 6.
Proof.
  intros [Hn _]. split.
  - now rewrite length_map.
  - unfold width. apply Forall_map, Forall_forall. reflexivity.
Qed.

Lemma sorted_column (a : array2) j :
  (j <= 5)%nat ->
  Spec.column j
    (map (fun r => map (fun c => nth c r 0) [0; 1; 2; 3; 4; 5]%nat) a)
  = Spec.column j a.
Proof.
  intros Hj. unfold Spec.column. rewrite map_map. apply map_ext. intros r.
  do 6 (destruct j as [| j]; [reflexivity |]). lia.
Qed.

Lemma sorted_feature_vector (a : array2) :
  Spec.feature_vector
    (map (fun r => map (fun c => nth c r 0) [0; 1; 2; 3; 4; 5]%nat) a)
  = Spec.feature_vector a.
Proof.
  unfold Spec.feature_vector. cbn [flat_map].
  rewrite !sorted_column by lia. reflexivity.
Qed.

Lemma width_firstn m k (a : array2) : width m a -> width m (firstn k a).
Proof.
  unfold width. intros Ha. revert k.
  induction Ha as [| r a Hr _ IH]; intros [| k]; simpl; constructor.
  - exact Hr.
  - apply IH.
Qed.

Lemma firstn_shape n m k (a : array2) :
  shape a n m -> shape (firstn k a) (Nat.min k n) m.
Proof.
  intros [Hn Hw]. split.
  - rewrite length_firstn. now rewrite Hn.
  - now apply width_firstn.
Qed.

Lemma compute_from_file_returns n m (loaded : array2) (co : list Z) :
  shape loaded n m -> (2 <= n)%nat -> (6 <= m)%nat ->
  co = default_col_order \/ co = swapped_col_order ->
  compute_from_file loaded co
  = Ok [Spec.feature_vector (firstn 101 loaded)].
Proof.
  intros Hshape Hn Hm Hco. unfold compute_from_file.
  pose proof (firstn_shape n m 101 loaded Hshape) as Hfirst.
  rewrite (sort_columns_identity m) by (assumption || apply Hfirst).
  cbn [bind].
  rewrite (parse_returns _ _ _ (sorted_shape _ _ _ Hfirst)) by lia.
  now rewrite sorted_feature_vector.
Qed.

(** C4, as the code has it.  [compute_from_file] checks no row count: for a
    table of [n >= 2] rows and at least 6 columns read with the default
    column order it raises nothing and returns the features of the first
    [min 101 n] rows.  So with fewer than 101 rows it returns the features of
    the rows present, and with more than 101 rows it returns what it returns
    for the first 101 rows alone. *)
Theorem compute_from_file_row_count (n m : nat) (loaded : array2) :
  shape loaded n m -> (2 <= n)%nat -> (6 <= m)%nat ->
  ~ raises (compute_from_file loaded default_col_order) /\
  compute_from_file loaded default_col_order
  = Ok [Spec.feature_vector (firstn 101 loaded)] /\
  length (firstn 101 loaded) = Nat.min 101 n /\
  compute_from_file loaded default_col_order
  = compute_from_file (firstn 101 loaded) default_col_order.
Proof.
  intros Hshape Hn Hm.
  pose proof (compute_from_file_returns n m loaded default_col_order
                Hshape Hn Hm (or_introl eq_refl)) as E.
  pose proof (firstn_shape n m 101 loaded Hshape) as Hfirst.
  split; [| split; [| split]].
  - intros [ex Hex]. rewrite E in Hex. discriminate.
  - exact E.
  - apply Hfirst.
  - rewrite E.
    rewrite (compute_from_file_returns _ m (firstn 101 loaded)
               default_col_order Hfirst) by (lia || now left).
    now rewrite firstn_firstn.
Qed.

Lemma compute_from_file_row_count_witness :
  shape (steady_table 150) 150 6 /\
  compute_from_file (steady_table 150) default_col_order
  = compute_from_file (firstn 101 (steady_table 150)) default_col_order.
Proof.
  split; [apply steady_table_shape |].
  apply (compute_from_file_row_count 150 6 (steady_table 150)).
  - apply steady_table_shape.
  - lia.
  - lia.
Defined.

(** C4 as stated fails: a table of 50 rows raises nothing. *)
Lemma compute_from_file_short_counterexample :
  length (steady_table 50) = 50%nat /\
  ~ raises (compute_from_file (steady_table 50) default_col_order) /\
  exists row,
    compute_from_file (steady_table 50) default_col_order = Ok [row].
Proof.
  pose proof (compute_from_file_returns 50 6 (steady_table 50)
                default_col_order (steady_table_shape 50)) as E.
  split; [apply (steady_table_shape 50) |].
  rewrite E by (lia || now left). split.
  - intros [ex Hex]. discriminate.
  - eexists. reflexivity.
Qed.

Lemma sort_columns_shifted_raises (data_t : array2) :
  raises (sort_columns data_t shifted_col_order).
Proof.
  unfold sort_columns.
  change (index shifted_col_order 0) with (@Ok Z 0%Z). cbn [bind].
  destruct (take_column data_t 0) as [col0 | ex]; [| now exists ex].
  cbn [bind].
  apply (for_each_raises _ _ 6%Z).
  - simpl. tauto.
  - intros s'. exists IndexError. reflexivity.
Qed.

(** C2 at the failing inputs.  With [col_order = [0, 2, 1, 3, 4, 5]] the
    claim puts input column 2 (e) in output column 1; the code puts input
    column 1 (a) there, and builds the same array, hence the same features,
    as with the default order.  With [col_order = [0, 2, 3, 4, 5, 6]] the
    code raises [IndexError] on every table. *)
Theorem sort_columns_reads_co_of_co :
  (exists data,
     sort_columns (firstn 101 (steady_table 101)) swapped_col_order
     = Ok data /\
     sort_columns (firstn 101 (steady_table 101)) default_col_order
     = Ok data /\
     Spec.column 1 data = Spec.column 1 (steady_table 101) /\
     Spec.column 1 data <> Spec.column 2 (steady_table 101)) /\
  compute_from_file (steady_table 101) swapped_col_order
  = compute_from_file (steady_table 101) default_col_order /\
  (forall data_t, raises (sort_columns data_t shifted_col_order)).
Proof.
  pose proof (steady_table_shape 101) as Hshape.
  assert (Hall : firstn 101 (steady_table 101) = steady_table 101).
  { apply firstn_all2. destruct Hshape as [-> _]. lia. }
  split; [| split].
  - eexists. rewrite Hall. destruct Hshape as [_ Hw].
    split; [apply (sort_columns_identity 6); [exact Hw | lia | now right] |].
    split; [apply (sort_columns_identity 6); [exact Hw | lia | now left] |].
    split; [apply sorted_column; lia |].
    rewrite sorted_column by lia.
    intros E. apply (f_equal (hd 0)) in E. simpl in E. lra.
  - rewrite !(compute_from_file_returns 101 6) by (assumption || lia || tauto).
    reflexivity.
  - apply sort_columns_shifted_raises.
Qed.

(** ** [run_simulation]: the checkpoints *)


(** * Further properties of the notebook *)

(** ** [parse]: tables it rejects *)

Lemma index_error_kind {A : Type} (l : list A) (i : Z) (ex : exn) :
  index l i = Raise ex -> ex = IndexError.
Proof.
  unfold index.
  destruct ((0 <=? _)%Z && _)%bool; [| now intros [= <-]].
  destruct (nth_error _ _); [discriminate | now intros [= <-]].
Qed.

Lemma for_each_error_kind {S A : Type} (body : S -> A -> result S)
      (xs : list A) (s : S) (ex : exn) :
  (forall s' x ex', body s' x = Raise ex' -> ex' = IndexError) ->
  for_each body xs s = Raise ex -> ex = IndexError.
Proof.
  intros Hbody. revert s.
  induction xs as [| x xs IH]; intros s E; [discriminate E |].
  simpl in E. destruct (body s x) as [s' | ex'] eqn:Eb.
  - apply (IH s' E).
  - injection E as <-. apply (Hbody s x ex' Eb).
Qed.

Lemma gather_index_error (u : array1) (rest : list array1) :
  (length u < 5)%nat ->
  for_each (fun features i =>
    for_each (fun features v =>
      x <- index v i ;; Ok (features ++ [x])) (u :: rest) features)
    [0; 1; 2; 3; 4]%Z []
  = Raise IndexError.
Proof.
  intros Hu. destruct (gather_raises u rest Hu) as [ex Hex].
  rewrite Hex. f_equal.
  refine (for_each_error_kind _ _ _ _ _ Hex).
  intros s' i ex' E.
  refine (for_each_error_kind _ _ _ _ _ E).
  intros s'' v ex'' E'. cbv beta in E'.
  destruct (index v i) eqn:Ei; [discriminate E' |].
  injection E' as <-. apply (index_error_kind _ _ _ Ei).
Qed.

(** X1.  On a table of fewer than two rows (and one column at least)
    [parse] raises: [IndexError] from [data[0,1:]] when there is no row,
    [ValueError] from [np.amin] of the empty array of rates when there is
    one row. *)
Theorem parse_too_few_rows (m : nat) (data : array2) :
  width m data -> (1 <= m)%nat -> (length data < 2)%nat ->
  (data = [] /\ parse data = Raise IndexError) \/
  (length data = 1%nat /\ parse data = Raise ValueError).
Proof.
  intros _ _ Hn. destruct data as [| r [| r' data]].
  - left. split; reflexivity.
  - right. split; reflexivity.
  - simpl in Hn. lia.
Qed.

Lemma parse_too_few_rows_witness :
  width 6 [steady_row 0] /\
  parse [steady_row 0] = Raise ValueError.
Proof.
  assert (Hw : width 6 [steady_row 0]) by (repeat constructor).
  split; [exact Hw |].
  destruct (parse_too_few_rows 6 [steady_row 0] Hw) as [[E _] | [_ E]].
  - lia.
  - simpl. lia.
  - discriminate E.
  - exact E.
Defined.

(** X2.  On a table of two rows at least and fewer than six columns [parse]
    raises [IndexError]: from [diffs[:,0]] when there is no column, from
    [a[i]] in the loop over [inds] otherwise. *)
Theorem parse_too_few_columns (m : nat) (data : array2) :
  width m data -> (2 <= length data)%nat -> (m < 6)%nat ->
  parse data = Raise IndexError.
Proof.
  intros Hw Hn Hm. destruct m as [| m].
  - destruct data as [| r0 [| r1 data]]; simpl in Hn; try lia.
    inversion Hw as [| ? ? Hr0 Hw']; subst.
    inversion Hw' as [| ? ? Hr1 _]; subst.
    destruct r0; [| discriminate]. destruct r1; [| discriminate].
    unfold parse.
    rewrite (index_first [] ([] :: [] :: data)) by discriminate.
    rewrite (index_last [] ([] :: [] :: data)) by discriminate.
    reflexivity.
  - assert (Hne : data <> []) by (intros ->; simpl in Hn; lia).
    pose proof (width_cols_from1 m data Hw) as Hbody.
    assert (Hbne : cols_from1 data <> [])
      by (unfold cols_from1; destruct data; [contradiction | discriminate]).
    destruct (amin_axis0_spec m _ Hbne Hbody) as (mins & Emins & _).
    destruct (amax_axis0_spec m _ Hbne Hbody) as (maxes & Emaxes & _).
    set (diffs := sub2 (rows_from1 data) (rows_but_last data)).
    assert (Hdw : width (S m) diffs) by now apply width_diffs.
    assert (Hdl : length diffs = (length data - 1)%nat)
      by apply length_diffs.
    assert (Edt : take_column diffs 0 = Ok (Spec.column 0 diffs))
      by (apply (take_column_ok (S m) 0); [assumption | lia]).
    set (dxdt := div_newaxis (cols_from1 diffs) (Spec.column 0 diffs)).
    assert (Hxw : width m dxdt)
      by (apply width_div_newaxis, width_cols_from1; assumption).
    assert (Hxl : length dxdt = (length data - 1)%nat).
    { unfold dxdt, cols_from1.
      rewrite length_div_newaxis; rewrite length_map;
        rewrite ?column_length; congruence. }
    assert (Hxne : dxdt <> [])
      by (intros E; rewrite E in Hxl; simpl in Hxl; lia).
    destruct (amin_axis0_spec m _ Hxne Hxw) as (rmins & Ermins & _).
    destruct (amax_axis0_spec m _ Hxne Hxw) as (rmaxes & Ermaxes & _).
    unfold parse.
    rewrite (index_first [] data Hne), (index_last [] data Hne).
    cbn [bind]. rewrite Emins, Emaxes. cbn [bind]. fold diffs.
    rewrite Edt. cbn [bind]. fold dxdt. rewrite Ermins, Ermaxes.
    cbn [bind]. rewrite gather_index_error; [reflexivity |].
    rewrite length_skipn.
    destruct data as [| r data]; [contradiction |].
    inversion Hw as [| ? ? Hr _]; subst. simpl. lia.
Qed.

Lemma parse_too_few_columns_witness :
  width 3 (map (firstn 3) (steady_table 101)) /\
  parse (map (firstn 3) (steady_table 101)) = Raise IndexError.
Proof.
  assert (Hw : width 3 (map (firstn 3) (steady_table 101))).
  { unfold width, steady_table. rewrite map_map.
    apply Forall_map, Forall_forall. reflexivity. }
  split; [exact Hw |].
  apply (parse_too_few_columns 3 _ Hw).
  - rewrite length_map. destruct (steady_table_shape 101) as [-> _]. lia.
  - lia.
Defined.

(** ** [parse]: what it does not look at *)

Lemma column_firstn6 (data : array2) j :
  (j < 6)%nat ->
  Spec.column j (map (firstn 6) data) = Spec.column j data.
Proof.
  intros Hj. unfold Spec.column. rewrite map_map. apply map_ext.
  intros r. rewrite nth_firstn.
  destruct (Nat.ltb_spec j 6); [reflexivity | lia].
Qed.

(** X3.  [parse] reads the columns 0 to 5 only: on a table of two rows and
    six columns at least it returns what it returns for the table cut to
    its first six columns. *)
Theorem parse_ignores_extra_columns (n m : nat) (data : array2) :
  shape data n m -> (2 <= n)%nat -> (6 <= m)%nat ->
  parse data = parse (map (firstn 6) data).
Proof.
  intros Hshape Hn Hm.
  assert (Hcut : shape (map (firstn 6) data) n 6).
  { destruct Hshape as [Hlen Hw]. split; [now rewrite length_map |].
    unfold width in *. apply Forall_map.
    eapply Forall_impl; [| exact Hw].
    intros r Hr. cbv beta in *. rewrite length_firstn. lia. }
  rewrite (parse_returns n m data Hshape Hn Hm).
  rewrite (parse_returns n 6 _ Hcut) by lia.
  unfold Spec.feature_vector. cbn [flat_map].
  rewrite !column_firstn6 by lia. reflexivity.
Qed.

Lemma parse_ignores_extra_columns_witness :
  shape (map (fun r => r ++ [45.471]) (steady_table 101)) 101 7 /\
  parse (map (fun r => r ++ [45.471]) (steady_table 101))
  = parse (map (firstn 6)
             (map (fun r => r ++ [45.471]) (steady_table 101))).
Proof.
  assert (Hshape : shape (map (fun r => r ++ [45.471]) (steady_table 101))
                         101 7).
  { split.
    - rewrite length_map. apply (steady_table_shape 101).
    - unfold width, steady_table. rewrite map_map.
      apply Forall_map, Forall_forall. reflexivity. }
  split; [exact Hshape |].
  apply (parse_ignores_extra_columns 101 7 _ Hshape); lia.
Defined.

(** ** [compute_from_file]: the columns read and the inputs rejected *)

Lemma picked_columns_length (co : list nat) :
  co <> [] -> length (picked_columns co) = length co.
Proof.
  intros Hne. destruct co as [| c0 rest]; [contradiction |].
  unfold picked_columns. simpl. now rewrite length_map.
Qed.

Lemma picked_columns_nth (co : list nat) j :
  (j < length co)%nat ->
  nth j (picked_columns co) 0%nat
  = match j with
    | O => nth 0 co 0%nat
    | S _ => nth (nth j co 0%nat) co 0%nat
    end.
Proof.
  intros Hj. destruct co as [| c0 rest]; [simpl in Hj; lia |].
  destruct j as [| j]; [reflexivity |].
  unfold picked_columns. cbn [hd skipn nth].
  rewrite (nth_indep _ 0%nat (nth 0 (c0 :: rest) 0%nat))
    by (rewrite length_map; simpl in Hj; lia).
  exact (map_nth (fun i => nth i (c0 :: rest) 0%nat) rest 0%nat j).
Qed.

(** X8.  What the column-sorting block of [compute_from_file] builds for a
    list [co] of natural indices (every entry of [co[1:]] a valid index
    into [co], every column read a column of the table): an array with the
    rows of the table and one column per entry of [co]; its column 0 is
    column [co[0]] of the table, and its column [j >= 1] is column
    [co[co[j]]] of the table. *)
Theorem sort_columns_reads (m : nat) (data_t : array2) (co : list nat) :
  width m data_t -> co <> [] ->
  Forall (fun i => (i < length co)%nat) (skipn 1 co) ->
  Forall (fun c => (c < m)%nat) (picked_columns co) ->
  exists data,
    sort_columns data_t (map Z.of_nat co) = Ok data /\
    shape data (length data_t) (length co) /\
    Spec.column 0 data = Spec.column (nth 0 co 0%nat) data_t /\
    (forall j, (1 <= j < length co)%nat ->
       Spec.column j data
       = Spec.column (nth (nth j co 0%nat) co 0%nat) data_t).
Proof.
  intros Hw Hne Hin Hpick. eexists.
  split; [apply (sort_columns_picks m); assumption |].
  assert (Hcol : forall j, (j < length co)%nat ->
            Spec.column j
              (map (fun r => map (fun c => nth c r 0) (picked_columns co))
                   data_t)
            = Spec.column (nth j (picked_columns co) 0%nat) data_t).
  { intros j Hj. unfold Spec.column. rewrite map_map. apply map_ext.
    intros r.
    rewrite (nth_indep _ 0 (nth 0%nat r 0))
      by (rewrite length_map, picked_columns_length; assumption).
    exact (map_nth (fun c => nth c r 0) (picked_columns co) 0%nat j). }
  assert (Hlen : (0 < length co)%nat)
    by (destruct co; [contradiction | simpl; lia]).
  split; [| split].
  - split; [now rewrite length_map |].
    unfold width. apply Forall_map, Forall_forall. intros r _.
    now rewrite length_map, picked_columns_length.
  - rewrite Hcol, picked_columns_nth by exact Hlen. reflexivity.
  - intros j Hj. rewrite Hcol, picked_columns_nth by lia.
    destruct j as [| j]; [lia | reflexivity].
Qed.

Lemma sort_columns_reads_witness :
  width 6 (steady_table 101) /\
  exists data,
    sort_columns (steady_table 101)
                 (map Z.of_nat [0; 2; 1; 3; 4; 5]%nat) = Ok data /\
    Spec.column 1 data = Spec.column 1 (steady_table 101).
Proof.
  split; [apply steady_table_shape |].
  destruct (sort_columns_reads 6 (steady_table 101) [0; 2; 1; 3; 4; 5]%nat)
    as (data & E & _ & _ & Hcol).
  - apply steady_table_shape.
  - discriminate.
  - repeat constructor.
  - repeat constructor; simpl; lia.
  - exists data. split; [exact E |].
    apply (Hcol 1%nat). simpl. lia.
Defined.

Lemma map_each_length {A B : Type} (f : A -> result B) (xs : list A)
      (ys : list B) :
  map_each f xs = Ok ys -> length ys = length xs.
Proof.
  revert ys. induction xs as [| x xs IH]; intros ys E.
  - injection E as <-. reflexivity.
  - simpl in E. destruct (f x) as [y |]; [| discriminate E].
    cbn [bind] in E.
    destruct (map_each f xs) as [ys' |]; [| discriminate E].
    injection E as <-. simpl. f_equal. now apply IH.
Qed.

Lemma concatenate_column_shape n w (data : array2) (col : array1) :
  shape data n w -> length col = n ->
  shape (concatenate_axis1 data (newaxis col)) n (S w).
Proof.
  intros [Hn Hw] Hcol. unfold concatenate_axis1, newaxis. split.
  - rewrite zip_with_length, length_map. lia.
  - clear Hn Hcol. revert col. unfold width in *.
    induction Hw as [| r data Hr _ IH]; intros [| x col];
      try constructor.
    + rewrite length_app. simpl. lia.
    + apply IH.
Qed.

Lemma sort_loop_shape (data_t : array2) (co cs : list Z) (w : nat)
      (acc data : array2) :
  shape acc (length data_t) w ->
  for_each (fun data i =>
    ci <- index co i ;;
    col <- take_column data_t ci ;;
    Ok (concatenate_axis1 data (newaxis col))) cs acc = Ok data ->
  shape data (length data_t) (w + length cs).
Proof.
  revert w acc. induction cs as [| i cs IH]; intros w acc Hacc E.
  - injection E as <-. now rewrite Nat.add_0_r.
  - cbn [for_each] in E.
    destruct (index co i) as [ci |]; [| discriminate E].
    cbn [bind] in E.
    destruct (take_column data_t ci) as [col |] eqn:Ec; [| discriminate E].
    cbn [bind] in E. apply map_each_length in Ec.
    replace (w + length (i :: cs))%nat with (S w + length cs)%nat
      by (simpl; lia).
    eapply IH; [| exact E].
    now apply concatenate_column_shape.
Qed.

Lemma sort_columns_shape (data_t : array2) (co : list Z) (data : array2) :
  sort_columns data_t co = Ok data ->
  shape data (length data_t) (length co).
Proof.
  unfold sort_columns. intros E.
  destruct co as [| c0 rest]; [discriminate E |].
  destruct (index (c0 :: rest) 0) as [c |]; [| discriminate E].
  cbn [bind] in E.
  destruct (take_column data_t c) as [col0 |] eqn:E0; [| discriminate E].
  cbn [bind skipn] in E.
  apply map_each_length in E0.
  change (length (c0 :: rest)) with (1 + length rest)%nat.
  eapply sort_loop_shape; [| exact E].
  split; [unfold newaxis; now rewrite length_map |].
  unfold width, newaxis. apply Forall_map, Forall_forall. reflexivity.
Qed.

(** X9.  [compute_from_file] returns features only for a table of two rows
    at least and a [col_order] of six entries at least: with fewer rows, or
    with a shorter [col_order], it raises. *)
Theorem compute_from_file_returns_only_if (loaded : array2) (co : list Z)
        (v : array2) :
  compute_from_file loaded co = Ok v ->
  (2 <= length loaded)%nat /\ (6 <= length co)%nat.
Proof.
  unfold compute_from_file. intros E.
  destruct (sort_columns (firstn 101 loaded) co) as [data |] eqn:Es;
    [| discriminate E].
  cbn [bind] in E.
  destruct (sort_columns_shape _ _ _ Es) as [Hlen Hw].
  destruct (parse_ok_shape _ _ _ Hw E) as [Hn Hm].
  split; [| exact Hm].
  rewrite Hlen, length_firstn in Hn. lia.
Qed.

Lemma compute_from_file_returns_only_if_witness :
  compute_from_file (steady_table 101) default_col_order
  = Ok [Spec.feature_vector (firstn 101 (steady_table 101))] /\
  (2 <= length (steady_table 101))%nat /\
  (6 <= length default_col_order)%nat.
Proof.
  assert (E : compute_from_file (steady_table 101) default_col_order
              = Ok [Spec.feature_vector (firstn 101 (steady_table 101))]).
  { apply (compute_from_file_returns 101 6);
      [apply steady_table_shape | lia | lia | now left]. }
  split; [exact E |].
  apply (compute_from_file_returns_only_if _ _ _ E).
Defined.

(** ** [run_simulation]: what the loop reads and writes *)















(** ** [run_simulation]: when the integrator is called *)












(** ** [start_simulation]: the date *)





(** ** [compute_from_file]: an entry of [col_order] that is no index into it *)

Lemma index_outside {A : Type} (l : list A) (i : Z) :
  (i < - Z.of_nat (length l) \/ Z.of_nat (length l) <= i)%Z ->
  index l i = Raise IndexError.
Proof.
  intros Hi. unfold index.
  destruct (Z.ltb_spec i 0) as [Hneg | Hpos].
  - destruct (Z.leb_spec 0 (Z.of_nat (length l) + i)) as [Hle | _];
      [lia | reflexivity].
  - destruct (Z.ltb_spec i (Z.of_nat (length l))) as [Hlt | _]; [lia |].
    now rewrite andb_false_r.
Qed.

Lemma map_each_error_kind {A B : Type} (f : A -> result B) (xs : list A)
      (ex : exn) :
  (forall x ex', f x = Raise ex' -> ex' = IndexError) ->
  map_each f xs = Raise ex -> ex = IndexError.
Proof.
  intros Hf. induction xs as [| x xs IH]; intros E; [discriminate E |].
  simpl in E. destruct (f x) as [y | ex'] eqn:Ef.
  - cbn [bind] in E. destruct (map_each f xs) as [ys | ex''];
      [discriminate E |].
    injection E as <-. now apply IH.
  - injection E as <-. apply (Hf x ex' Ef).
Qed.

Lemma take_column_error_kind (a : array2) (k : Z) (ex : exn) :
  take_column a k = Raise ex -> ex = IndexError.
Proof.
  apply map_each_error_kind. intros r ex'. apply index_error_kind.
Qed.

Lemma sort_columns_error_kind (data_t : array2) (co : list Z) (ex : exn) :
  sort_columns data_t co = Raise ex -> ex = IndexError.
Proof.
  unfold sort_columns. intros E.
  destruct (index co 0) as [c0 | ex0] eqn:E0.
  2:{ injection E as <-. apply (index_error_kind _ _ _ E0). }
  cbn [bind] in E.
  destruct (take_column data_t c0) as [col0 | ex1] eqn:E1.
  2:{ injection E as <-. apply (take_column_error_kind _ _ _ E1). }
  cbn [bind] in E.
  refine (for_each_error_kind _ _ _ _ _ E).
  intros data i ex' Eb. cbv beta in Eb.
  destruct (index co i) as [ci | ex2] eqn:E2.
  2:{ injection Eb as <-. apply (index_error_kind _ _ _ E2). }
  cbn [bind] in Eb.
  destruct (take_column data_t ci) as [col | ex3] eqn:E3.
  2:{ injection Eb as <-. apply (take_column_error_kind _ _ _ E3). }
  discriminate Eb.
Qed.

(** X20.  Every entry of [col_order[1:]] is used as an index into
    [col_order] itself: when one of them is outside [-len, len) of
    [col_order], as a column index of a file with extra columns can be,
    [compute_from_file] raises [IndexError], whatever the table. *)
Theorem compute_from_file_entry_out_of_range (loaded : array2)
        (co : list Z) (i : Z) :
  In i (skipn 1 co) ->
  (i < - Z.of_nat (length co) \/ Z.of_nat (length co) <= i)%Z ->
  compute_from_file loaded co = Raise IndexError.
Proof.
  intros Hin Hi. unfold compute_from_file.
  assert (Hr : raises (sort_columns (firstn 101 loaded) co)).
  { unfold sort_columns.
    destruct (index co 0) as [c0 | ex0]; [| now exists ex0].
    cbn [bind].
    destruct (take_column (firstn 101 loaded) c0) as [col0 | ex1];
      [| now exists ex1].
    cbn [bind]. apply (for_each_raises _ _ i); [exact Hin |].
    intros s'. rewrite (index_outside co i Hi). now exists IndexError. }
  destruct Hr as [ex Hex]. rewrite Hex.
  rewrite (sort_columns_error_kind _ _ _ Hex). reflexivity.
Qed.

Lemma compute_from_file_entry_out_of_range_witness :
  In 6%Z (skipn 1 shifted_col_order) /\
  compute_from_file (map (fun r => r ++ [45.471]) (steady_table 101))
                    shifted_col_order
  = Raise IndexError.
Proof.
  assert (Hin : In 6%Z (skipn 1 shifted_col_order)) by (simpl; tauto).
  split; [exact Hin |].
  apply (compute_from_file_entry_out_of_range _ _ 6%Z Hin).
  right. simpl. lia.
Defined.

(** * Floats

    Facts of binary64 arithmetic, derived from the library's specification
    of the primitive operations: each is the operation of [SpecFloat] on
    the descriptions [Prim2SF] gives ([FloatAxioms]). *)

Local Open Scope Z_scope.

(** ** Floats seen through their IEEE 754 description *)

(** [is_nan] and [is_finite] read off the description. *)
Lemma f64_is_nan_shape (x : float) :
  PrimFloat.is_nan x = true <-> Prim2SF x = S754_nan.
Proof.
  unfold PrimFloat.is_nan. rewrite FloatAxioms.eqb_spec. unfold SFeqb.
  destruct (Prim2SF x) as [s | s | | s m e]; simpl.
  - split; discriminate.
  - destruct s; split; discriminate.
  - split; reflexivity.
  - destruct s; rewrite Z.compare_refl, Pos.compare_cont_refl; simpl;
      split; discriminate.
Qed.

Lemma f64_is_number_shape (x : float) :
  PrimFloat.is_nan x = false <-> Prim2SF x <> S754_nan.
Proof.
  rewrite <- f64_is_nan_shape. destruct (PrimFloat.is_nan x); split; congruence.
Qed.

Lemma f64_is_finite_shape (x : float) :
  PrimFloat.is_finite x = F64.SFfinite (Prim2SF x).
Proof.
  unfold PrimFloat.is_finite, PrimFloat.is_infinity.
  destruct (PrimFloat.is_nan x) eqn:En.
  - apply f64_is_nan_shape in En. now rewrite En.
  - apply f64_is_number_shape in En. rewrite FloatAxioms.eqb_spec, abs_spec.
    change (Prim2SF infinity) with (S754_infinity false).
    destruct (Prim2SF x) as [s | s | | s m e]; try reflexivity.
    contradiction.
Qed.

(** The comparison of two descriptions that are not [nan] is the
    lexicographic comparison of their keys. *)
Lemma f64_SFcompare_key (x y : spec_float) :
  x <> S754_nan -> y <> S754_nan ->
  exists c, SFcompare x y = Some c /\
    match c with
    | Lt => F64.lex_lt (F64.key x) (F64.key y)
    | Eq => F64.lex_eq (F64.key x) (F64.key y)
    | Gt => F64.lex_lt (F64.key y) (F64.key x)
    end.
Proof.
  intros Hx Hy.
  destruct x as [sx | sx | | sx mx ex]; try contradiction;
  destruct y as [sy | sy | | sy my ey]; try contradiction;
  try destruct sx; try destruct sy; simpl;
  try (eexists; split; [reflexivity |]; simpl; lia).
  - destruct (Z.compare_spec ex ey) as [E | E | E].
    + change (Pos.compare_cont Eq mx my) with (Pos.compare mx my).
      destruct (Pos.compare_spec mx my) as [E' | E' | E'];
        eexists; (split; [reflexivity |]); simpl; lia.
    + eexists; (split; [reflexivity |]); simpl; lia.
    + eexists; (split; [reflexivity |]); simpl; lia.
  - destruct (Z.compare_spec ex ey) as [E | E | E].
    + change (Pos.compare_cont Eq mx my) with (Pos.compare mx my).
      destruct (Pos.compare_spec mx my) as [E' | E' | E'];
        eexists; (split; [reflexivity |]); simpl; lia.
    + eexists; (split; [reflexivity |]); simpl; lia.
    + eexists; (split; [reflexivity |]); simpl; lia.
Qed.

Local Open Scope float_scope.

Lemma f64_SFcompare_nan (s t : spec_float) :
  s = S754_nan \/ t = S754_nan -> SFcompare s t = None.
Proof.
  intros [-> | ->]; [reflexivity |].
  destruct s as [sx | sx | | sx mx ex]; reflexivity.
Qed.

Lemma f64_SF_nan_dec (s : spec_float) : {s = S754_nan} + {s <> S754_nan}.
Proof. destruct s; (now left) || (right; discriminate). Qed.

Lemma f64_SFleb_key (s t : spec_float) :
  SFleb s t = true <->
  s <> S754_nan /\ t <> S754_nan /\
  (F64.lex_lt (F64.key s) (F64.key t) \/ F64.lex_eq (F64.key s) (F64.key t)).
Proof.
  unfold SFleb.
  destruct (f64_SF_nan_dec s) as [Ex | Ex];
    [rewrite f64_SFcompare_nan by tauto; split; [discriminate | tauto] |].
  destruct (f64_SF_nan_dec t) as [Ey | Ey];
    [rewrite f64_SFcompare_nan by tauto; split; [discriminate | tauto] |].
  destruct (f64_SFcompare_key _ _ Ex Ey) as [c [-> Hc]].
  revert Hc. generalize (F64.key s), (F64.key t).
  intros [[a1 a2] a3] [[b1 b2] b3] Hc.
  destruct c; simpl in *; split; intros H;
    repeat split; try discriminate; try tauto; try lia.
Qed.

Lemma f64_SFltb_key (s t : spec_float) :
  SFltb s t = true <->
  s <> S754_nan /\ t <> S754_nan /\ F64.lex_lt (F64.key s) (F64.key t).
Proof.
  unfold SFltb.
  destruct (f64_SF_nan_dec s) as [Ex | Ex];
    [rewrite f64_SFcompare_nan by tauto; split; [discriminate | tauto] |].
  destruct (f64_SF_nan_dec t) as [Ey | Ey];
    [rewrite f64_SFcompare_nan by tauto; split; [discriminate | tauto] |].
  destruct (f64_SFcompare_key _ _ Ex Ey) as [c [-> Hc]].
  revert Hc. generalize (F64.key s), (F64.key t).
  intros [[a1 a2] a3] [[b1 b2] b3] Hc.
  destruct c; simpl in *; split; intros H;
    repeat split; try discriminate; try tauto; try lia.
Qed.

Lemma f64_leb_key (x y : float) :
  (x <=? y) = true <->
  Prim2SF x <> S754_nan /\ Prim2SF y <> S754_nan /\
  (F64.lex_lt (F64.key (Prim2SF x)) (F64.key (Prim2SF y))
   \/ F64.lex_eq (F64.key (Prim2SF x)) (F64.key (Prim2SF y))).
Proof. rewrite FloatAxioms.leb_spec. apply f64_SFleb_key. Qed.

Lemma f64_ltb_key (x y : float) :
  (x <? y) = true <->
  Prim2SF x <> S754_nan /\ Prim2SF y <> S754_nan /\
  F64.lex_lt (F64.key (Prim2SF x)) (F64.key (Prim2SF y)).
Proof. rewrite FloatAxioms.ltb_spec. apply f64_SFltb_key. Qed.

(** On floats that are not [nan], [<=?] is a total order. *)
Lemma f64_leb_refl (x : float) : PrimFloat.is_nan x = false -> (x <=? x) = true.
Proof.
  intros H. apply f64_is_number_shape in H. apply f64_leb_key.
  split; [exact H |]. split; [exact H |]. right.
  generalize (F64.key (Prim2SF x)). intros [[a1 a2] a3]. simpl. lia.
Qed.

Lemma f64_leb_trans (x y z : float) :
  (x <=? y) = true -> (y <=? z) = true -> (x <=? z) = true.
Proof.
  rewrite !f64_leb_key. intros (Hx & Hy & H1) (_ & Hz & H2).
  split; [exact Hx |]. split; [exact Hz |].
  revert H1 H2.
  generalize (F64.key (Prim2SF x)), (F64.key (Prim2SF y)),
    (F64.key (Prim2SF z)).
  intros [[a1 a2] a3] [[b1 b2] b3] [[c1 c2] c3]. simpl. lia.
Qed.

Lemma f64_ltb_leb (x y : float) : (x <? y) = true -> (x <=? y) = true.
Proof.
  rewrite f64_ltb_key, f64_leb_key. tauto.
Qed.

Lemma f64_not_ltb_leb (x y : float) :
  PrimFloat.is_nan x = false -> PrimFloat.is_nan y = false ->
  (x <? y) = false -> (y <=? x) = true.
Proof.
  intros Hx Hy H. apply f64_is_number_shape in Hx, Hy.
  apply f64_leb_key. split; [exact Hy |]. split; [exact Hx |].
  assert (N : ~ F64.lex_lt (F64.key (Prim2SF x)) (F64.key (Prim2SF y))).
  { intros L. assert (T : (x <? y) = true) by (apply f64_ltb_key; tauto).
    congruence. }
  revert N. generalize (F64.key (Prim2SF x)), (F64.key (Prim2SF y)).
  intros [[a1 a2] a3] [[b1 b2] b3]. simpl. lia.
Qed.


(** ** Differences and quotients that are exact *)
(** [c - c] is [+0] for a finite [c]; [0 / d] is [+0] for a positive [d];
    a quotient by a zero is [inf] or [nan]. *)
Lemma f64_sub_diag (c : float) : PrimFloat.is_finite c = true -> c - c = 0.
Proof.
  intros H. rewrite f64_is_finite_shape in H.
  apply Prim2SF_inj. rewrite FloatAxioms.sub_spec.
  destruct (Prim2SF c) as [s | s | | s m e]; try discriminate.
  - now destruct s.
  - unfold SF64sub, SFsub. now rewrite Z.sub_diag.
Qed.

Lemma f64_zero_div (d : float) : (0 <? d) = true -> 0 / d = 0.
Proof.
  intros H. rewrite FloatAxioms.ltb_spec in H.
  apply Prim2SF_inj. rewrite FloatAxioms.div_spec.
  change (Prim2SF 0) with (S754_zero false) in *.
  destruct (Prim2SF d) as [s | s | | s m e]; try discriminate;
    destruct s; try discriminate; reflexivity.
Qed.

Lemma f64_div_by_zero (x d : float) :
  (d =? 0) = true -> PrimFloat.is_finite (x / d) = false.
Proof.
  intros H. rewrite FloatAxioms.eqb_spec in H.
  rewrite f64_is_finite_shape, FloatAxioms.div_spec.
  change (Prim2SF 0) with (S754_zero false) in *.
  destruct (Prim2SF d) as [s | s | | s m e]; try discriminate;
    try (destruct s; discriminate).
  destruct (Prim2SF x) as [sx | sx | | sx mx ex]; reflexivity.
Qed.

(** ** Rounding keeps the sign and makes no [nan] *)
Local Open Scope Z_scope.











Local Open Scope float_scope.


(** ** The sign of a difference *)
Local Open Scope Z_scope.











Local Open Scope float_scope.







(** * The notebook on floats *)

Local Open Scope float_scope.

(** ** Arrays of floats: entries of the results of the numpy operations *)

Lemma nth_map_lt {A B : Type} (f : A -> B) (l : list A) (d : A) (d' : B)
      (k : nat) :
  (k < length l)%nat -> nth k (map f l) d' = f (nth k l d).
Proof.
  intros Hk. rewrite (nth_indep _ d' (f d)) by (now rewrite length_map).
  apply map_nth.
Qed.

Lemma f64_fold_rows_length (f : float -> float -> float) m rs r :
  F64.width m rs -> length r = m ->
  length (fold_left (zip_with f) rs r) = m.
Proof.
  intros Hrs. revert r.
  induction Hrs as [| r' rs Hr' _ IH]; intros r Hr; simpl; [exact Hr |].
  apply IH. rewrite zip_with_length. lia.
Qed.

Lemma f64_fold_rows_nth (f : float -> float -> float) m rs r j :
  F64.width m rs -> length r = m -> (j < m)%nat ->
  nth j (fold_left (zip_with f) rs r) 0
  = fold_left f (F64.column j rs) (nth j r 0).
Proof.
  intros Hrs. revert r.
  induction Hrs as [| r' rs Hr' _ IH]; intros r Hr Hj; simpl;
    [reflexivity |].
  rewrite IH by (rewrite ?zip_with_length; lia).
  rewrite (zip_with_nth f 0 0 0) by lia. reflexivity.
Qed.

Lemma f64_column_length j (a : F64.array2) :
  length (F64.column j a) = length a.
Proof. unfold F64.column. apply length_map. Qed.

Lemma f64_column_cols_from1 j (a : F64.array2) :
  F64.column j (F64.cols_from1 a) = F64.column (S j) a.
Proof.
  unfold F64.column, F64.cols_from1. rewrite map_map.
  apply map_ext. intros [| x r]; [now destruct j | reflexivity].
Qed.

Lemma f64_width_cols_from1 m (a : F64.array2) :
  F64.width (S m) a -> F64.width m (F64.cols_from1 a).
Proof.
  unfold F64.width, F64.cols_from1. intros Ha. apply Forall_map.
  eapply Forall_impl; [| exact Ha].
  intros [| x r] Hr; simpl in *; lia.
Qed.

Lemma f64_width_diffs m (a : F64.array2) :
  F64.width m a ->
  F64.width m (F64.sub2 (F64.rows_from1 a) (F64.rows_but_last a)).
Proof.
  unfold F64.width, F64.sub2, F64.rows_from1, F64.rows_but_last.
  induction a as [| r1 a IH]; intros Ha; [constructor |].
  destruct a as [| r2 a]; [constructor |].
  inversion Ha as [| ? ? Hr1 Ha']; subst.
  inversion Ha' as [| ? ? Hr2 _]; subst.
  change (Forall (fun r => length r = length r1)
            (F64.sub1 r2 r1 :: zip_with F64.sub1 (skipn 1 (r2 :: a))
                                                 (removelast (r2 :: a)))).
  constructor.
  - unfold F64.sub1. rewrite zip_with_length. lia.
  - apply IH. exact Ha'.
Qed.

Lemma f64_length_diffs (a : F64.array2) :
  length (F64.sub2 (F64.rows_from1 a) (F64.rows_but_last a))
  = (length a - 1)%nat.
Proof.
  unfold F64.sub2, F64.rows_from1, F64.rows_but_last.
  rewrite zip_with_length, length_skipn.
  destruct a as [| r a]; [reflexivity |].
  rewrite removelast_firstn_len, length_firstn. simpl. lia.
Qed.

Lemma f64_column_diffs m j (a : F64.array2) :
  F64.width m a -> (j < m)%nat ->
  F64.column j (F64.sub2 (F64.rows_from1 a) (F64.rows_but_last a))
  = F64.first_differences (F64.column j a).
Proof.
  unfold F64.width, F64.sub2, F64.rows_from1, F64.rows_but_last.
  intros Ha Hj.
  induction a as [| r1 a IH]; [reflexivity |].
  destruct a as [| r2 a]; [reflexivity |].
  inversion Ha as [| ? ? Hr1 Ha']; subst.
  inversion Ha' as [| ? ? Hr2 _]; subst.
  change (nth j (F64.sub1 r2 r1) 0
          :: F64.column j (zip_with F64.sub1 (skipn 1 (r2 :: a))
                                             (removelast (r2 :: a)))
          = (nth j r2 0 - nth j r1 0)
          :: F64.first_differences (F64.column j (r2 :: a))).
  f_equal.
  - unfold F64.sub1. apply zip_with_nth; lia.
  - apply IH. exact Ha'.
Qed.

Lemma f64_take_column_ok m k (a : F64.array2) :
  F64.width m a -> (k < m)%nat ->
  F64.take_column a (Z.of_nat k) = Ok (F64.column k a).
Proof.
  intros Ha Hk. unfold F64.take_column, F64.column.
  apply map_each_ok.
  eapply Forall_impl; [| exact Ha].
  intros r Hr. cbv beta in Hr. apply index_nat. lia.
Qed.

Lemma f64_length_div_newaxis (a : F64.array2) (t : F64.array1) :
  length a = length t -> length (F64.div_newaxis a t) = length a.
Proof. intros H. unfold F64.div_newaxis. rewrite zip_with_length. lia. Qed.

Lemma f64_width_div_newaxis m (a : F64.array2) (t : F64.array1) :
  F64.width m a -> F64.width m (F64.div_newaxis a t).
Proof.
  unfold F64.width, F64.div_newaxis. intros Ha. revert t.
  induction Ha as [| r a Hr _ IH]; intros [| d t]; try constructor.
  - simpl. now rewrite length_map.
  - apply IH.
Qed.

Lemma f64_column_div_newaxis m j (a : F64.array2) (t : F64.array1) :
  F64.width m a -> (j < m)%nat ->
  F64.column j (F64.div_newaxis a t)
  = zip_with PrimFloat.div (F64.column j a) t.
Proof.
  unfold F64.div_newaxis, F64.width. intros Ha Hj. revert t.
  induction Ha as [| r a Hr _ IH]; intros [| d t]; try reflexivity.
  change (nth j (map (fun x => x / d) r) 0
          :: F64.column j (zip_with (fun row d => map (fun x => x / d) row)
                                    a t)
          = nth j r 0 / d :: zip_with PrimFloat.div (F64.column j a) t).
  f_equal; [| apply IH].
  apply (nth_map_lt (fun x => x / d) r 0 0 j). lia.
Qed.

(** ** The reductions along axis 0, column by column *)

Lemma f64_reduce_axis0_spec (f : float -> float -> float) m
      (a : F64.array2) :
  a <> [] -> F64.width m a ->
  exists v, F64.reduce_axis0 f a = Ok v /\ length v = m /\
            forall j, (j < m)%nat ->
              nth j v 0
              = match F64.column j a with
                | [] => 0
                | x :: xs => fold_left f xs x
                end.
Proof.
  intros Hne Ha. destruct a as [| r rs]; [contradiction |].
  inversion Ha as [| ? ? Hr Hrs]; subst.
  eexists. split; [reflexivity |]. split.
  - now apply f64_fold_rows_length.
  - intros j Hj.
    now rewrite (f64_fold_rows_nth f (length r))
      by first [exact Hrs | reflexivity | assumption].
Qed.

Lemma f64_mean_axis0_length m (a : F64.array2) :
  a <> [] -> F64.width m a -> length (F64.mean_axis0 a) = m.
Proof.
  intros Hne Ha. destruct a as [| r rs]; [contradiction |].
  inversion Ha as [| ? ? Hr Hrs]; subst.
  unfold F64.mean_axis0, F64.add_reduce_axis0. rewrite length_map.
  now apply f64_fold_rows_length.
Qed.

Lemma f64_mean_axis0_nth m (a : F64.array2) j :
  a <> [] -> F64.width m a -> (j < m)%nat ->
  nth j (F64.mean_axis0 a) 0 = F64.mean (F64.column j a).
Proof.
  intros Hne Ha Hj. destruct a as [| r rs]; [contradiction |].
  inversion Ha as [| ? ? Hr Hrs]; subst.
  unfold F64.mean_axis0, F64.add_reduce_axis0, F64.mean.
  rewrite f64_column_length.
  rewrite (nth_map_lt _ _ 0)
    by (rewrite (f64_fold_rows_length _ (length r)); trivial).
  f_equal.
  now rewrite (f64_fold_rows_nth PrimFloat.add (length r))
    by first [exact Hrs | reflexivity | assumption].
Qed.

Lemma f64_deviations_width m (a : F64.array2) :
  a <> [] -> F64.width m a ->
  F64.width m
    (map (map (fun d => d * d))
         (map (fun r => F64.sub1 r (F64.mean_axis0 a)) a)).
Proof.
  intros Hne Ha. unfold F64.width. rewrite !Forall_map.
  eapply Forall_impl; [| exact Ha].
  intros r Hr. cbv beta in *. unfold F64.sub1.
  rewrite length_map, zip_with_length, (f64_mean_axis0_length m)
    by assumption.
  lia.
Qed.

Lemma f64_std_axis0_length m (a : F64.array2) :
  a <> [] -> F64.width m a -> length (F64.std_axis0 a) = m.
Proof.
  intros Hne Ha. unfold F64.std_axis0. rewrite length_map.
  apply f64_mean_axis0_length; [| now apply f64_deviations_width].
  destruct a; [contradiction | discriminate].
Qed.

Lemma f64_std_axis0_nth m (a : F64.array2) j :
  a <> [] -> F64.width m a -> (j < m)%nat ->
  nth j (F64.std_axis0 a) 0 = F64.stdev (F64.column j a).
Proof.
  intros Hne Ha Hj. unfold F64.std_axis0.
  assert (Hne2 : map (map (fun d => d * d))
                   (map (fun r => F64.sub1 r (F64.mean_axis0 a)) a) <> [])
    by (destruct a; [contradiction | discriminate]).
  rewrite (nth_map_lt _ _ 0)
    by (rewrite (f64_mean_axis0_length m); trivial;
        now apply f64_deviations_width).
  unfold F64.stdev. f_equal.
  rewrite (f64_mean_axis0_nth m);
    [| exact Hne2 | now apply f64_deviations_width | exact Hj].
  f_equal.
  unfold F64.squared_deviations, F64.column. rewrite !map_map.
  apply map_ext_Forall.
  eapply Forall_impl; [| exact Ha].
  intros r Hr. cbv beta in *.
  rewrite (nth_map_lt _ _ 0)
    by (unfold F64.sub1; rewrite zip_with_length,
          (f64_mean_axis0_length m) by assumption; lia).
  unfold F64.sub1.
  rewrite (zip_with_nth PrimFloat.sub 0 0 0)
    by (rewrite ?(f64_mean_axis0_length m); assumption || lia).
  rewrite (f64_mean_axis0_nth m) by assumption.
  reflexivity.
Qed.

(** ** [parse] on floats returns the statistics of the columns *)

Lemma f64_gather_features (arrs : list F64.array1) :
  Forall (fun u => (5 <= length u)%nat) arrs ->
  for_each (fun features i =>
    for_each (fun features u =>
      x <- index u i ;; Ok (features ++ [x])) arrs features)
    [0; 1; 2; 3; 4]%Z []
  = Ok (flat_map (fun k => map (fun u => nth k u 0) arrs)
                 [0; 1; 2; 3; 4]%nat).
Proof.
  intros Hlen.
  assert (Hin : forall (k : nat) acc, (k < 5)%nat ->
            for_each (fun features u =>
              x <- index u (Z.of_nat k) ;; Ok (features ++ [x])) arrs acc
            = Ok (acc ++ map (fun u => nth k u 0) arrs)).
  { intros k acc Hk.
    apply (for_each_append (fun u => index u (Z.of_nat k))).
    eapply Forall_impl; [| exact Hlen].
    intros u Hu. cbv beta in Hu. apply index_nat. lia. }
  cbn [for_each flat_map].
  rewrite (Hin 0%nat) by lia. cbn [bind].
  rewrite (Hin 1%nat) by lia. cbn [bind].
  rewrite (Hin 2%nat) by lia. cbn [bind].
  rewrite (Hin 3%nat) by lia. cbn [bind].
  rewrite (Hin 4%nat) by lia. cbn [bind].
  rewrite app_nil_r, <- !app_assoc. reflexivity.
Qed.

Lemma f64_nth_skipn1 j (r : list float) :
  nth j (skipn 1 r) 0 = nth (S j) r 0.
Proof. destruct r; [now destruct j | reflexivity]. Qed.

Lemma f64_initial_column j (data : F64.array2) :
  nth j (skipn 1 (hd [] data)) 0 = F64.initial (F64.column (S j) data).
Proof. rewrite f64_nth_skipn1. now destruct data. Qed.

Lemma f64_final_column j (data : F64.array2) :
  data <> [] ->
  nth j (skipn 1 (last data [])) 0 = F64.final (F64.column (S j) data).
Proof.
  intros Hne. rewrite f64_nth_skipn1. unfold F64.final, F64.column.
  destruct (exists_last Hne) as [front [r ->]].
  rewrite map_app. cbn [map]. now rewrite !last_last.
Qed.

Lemma f64_rates_column n m (data : F64.array2) j :
  F64.shape data n (S m) -> (j < m)%nat ->
  let diffs := F64.sub2 (F64.rows_from1 data) (F64.rows_but_last data) in
  F64.column j (F64.div_newaxis (F64.cols_from1 diffs) (F64.column 0 diffs))
  = F64.rates (F64.column 0 data) (F64.column (S j) data).
Proof.
  intros [Hn Hw] Hj diffs.
  rewrite (f64_column_div_newaxis m)
    by (try apply f64_width_cols_from1; try apply f64_width_diffs;
        assumption).
  rewrite f64_column_cols_from1.
  unfold diffs, F64.rates.
  rewrite !(f64_column_diffs (S m)) by (assumption || lia).
  reflexivity.
Qed.

Lemma f64_parse_returns n m (data : F64.array2) :
  F64.shape data n m -> (2 <= n)%nat -> (6 <= m)%nat ->
  F64.parse data = Ok [F64.feature_vector data].
Proof.
  intros Hshape Hn2 Hm6. destruct m as [| m]; [lia |].
  pose proof Hshape as [Hn Hw].
  assert (Hne : data <> []) by (intros ->; simpl in Hn; lia).
  pose proof (f64_width_cols_from1 m data Hw) as Hbody.
  assert (Hbne : F64.cols_from1 data <> [])
    by (unfold F64.cols_from1; destruct data;
        [contradiction | discriminate]).
  destruct (f64_reduce_axis0_spec F64.np_minimum m _ Hbne Hbody)
    as (mins & Emins & Lmins & Nmins).
  destruct (f64_reduce_axis0_spec F64.np_maximum m _ Hbne Hbody)
    as (maxes & Emaxes & Lmaxes & Nmaxes).
  pose proof (f64_rates_column n m data) as Hrates. cbv zeta in Hrates.
  set (diffs := F64.sub2 (F64.rows_from1 data) (F64.rows_but_last data))
    in *.
  assert (Hdw : F64.width (S m) diffs) by now apply f64_width_diffs.
  assert (Hdl : length diffs = (n - 1)%nat)
    by (subst n; apply f64_length_diffs).
  assert (Edt : F64.take_column diffs 0 = Ok (F64.column 0 diffs))
    by (apply (f64_take_column_ok (S m) 0); [assumption | lia]).
  set (dxdt := F64.div_newaxis (F64.cols_from1 diffs) (F64.column 0 diffs))
    in *.
  assert (Hxw : F64.width m dxdt)
    by (apply f64_width_div_newaxis, f64_width_cols_from1; assumption).
  assert (Hxl : length dxdt = (n - 1)%nat).
  { unfold dxdt, F64.cols_from1.
    rewrite f64_length_div_newaxis; rewrite length_map;
      rewrite ?f64_column_length; congruence. }
  assert (Hxne : dxdt <> [])
    by (intros E; rewrite E in Hxl; simpl in Hxl; lia).
  destruct (f64_reduce_axis0_spec F64.np_minimum m _ Hxne Hxw)
    as (rmins & Ermins & Lrmins & Nrmins).
  destruct (f64_reduce_axis0_spec F64.np_maximum m _ Hxne Hxw)
    as (rmaxes & Ermaxes & Lrmaxes & Nrmaxes).
  unfold F64.parse, F64.amin_axis0, F64.amax_axis0.
  rewrite (index_first [] data Hne), (index_last [] data Hne). cbn [bind].
  rewrite Emins, Emaxes. cbn [bind]. fold diffs. rewrite Edt. cbn [bind].
  fold dxdt. rewrite Ermins, Ermaxes. cbn [bind].
  rewrite f64_gather_features.
  2:{ assert (Hhd : length (hd [] data) = S m).
      { destruct data as [| r data]; [contradiction |].
        now inversion Hw. }
      assert (Hlast : length (last data []) = S m).
      { destruct (exists_last Hne) as [front [r E]]. rewrite E in *.
        rewrite last_last. apply Forall_app in Hw as [_ Hr].
        now inversion Hr. }
      repeat constructor; unfold F64.sub1;
        rewrite ?length_skipn, ?zip_with_length,
          ?(f64_mean_axis0_length m), ?(f64_std_axis0_length m)
          by assumption;
        lia. }
  cbn [bind]. do 2 f_equal.
  unfold F64.feature_vector, F64.element_features.
  cbn [flat_map map app].
  assert (Hdels : forall j, (j < m)%nat ->
            nth j (F64.sub1 maxes mins) 0
            = F64.maximum (F64.column (S j) data)
              - F64.minimum (F64.column (S j) data)).
  { intros j Hj. unfold F64.sub1.
    rewrite (zip_with_nth PrimFloat.sub 0 0 0), Nmins, Nmaxes,
      f64_column_cols_from1 by lia.
    reflexivity. }
  assert (Hrdels : forall j, (j < m)%nat ->
            nth j (F64.sub1 rmaxes rmins) 0
            = F64.maximum (F64.rates (F64.column 0 data)
                                     (F64.column (S j) data))
              - F64.minimum (F64.rates (F64.column 0 data)
                                       (F64.column (S j) data))).
  { intros j Hj. unfold F64.sub1.
    rewrite (zip_with_nth PrimFloat.sub 0 0 0), Nrmins, Nrmaxes, (Hrates j)
      by (assumption || lia).
    reflexivity. }
  repeat match goal with
         | |- _ :: _ = _ :: _ => f_equal
         end;
    first
      [ apply f64_initial_column
      | apply f64_final_column; exact Hne
      | rewrite Nmins, f64_column_cols_from1 by lia; reflexivity
      | rewrite Nmaxes, f64_column_cols_from1 by lia; reflexivity
      | rewrite (f64_mean_axis0_nth m), f64_column_cols_from1
          by (assumption || lia); reflexivity
      | rewrite (f64_std_axis0_nth m), f64_column_cols_from1
          by (assumption || lia); reflexivity
      | apply Hdels; lia
      | apply Hrdels; lia
      | rewrite Nrmins, Hrates by (assumption || lia); reflexivity
      | rewrite Nrmaxes, Hrates by (assumption || lia); reflexivity
      | rewrite (f64_mean_axis0_nth m dxdt), Hrates
          by (assumption || lia); reflexivity ].
Qed.

Lemma f64_first_differences_length (x : list float) :
  length (F64.first_differences x) = (length x - 1)%nat.
Proof.
  induction x as [| u x IH]; [reflexivity |].
  destruct x as [| v x]; [reflexivity |].
  change (S (length (F64.first_differences (v :: x)))
          = (length (u :: v :: x) - 1)%nat).
  rewrite IH. simpl. lia.
Qed.

Lemma f64_first_differences_nth (x : list float) k :
  (S k < length x)%nat ->
  nth k (F64.first_differences x) 0 = nth (S k) x 0 - nth k x 0.
Proof.
  revert k. induction x as [| u x IH]; intros k Hk; [simpl in Hk; lia |].
  destruct x as [| v x]; [simpl in Hk; lia |].
  destruct k as [| k]; [reflexivity |].
  change (nth k (F64.first_differences (v :: x)) 0
          = nth (S k) (v :: x) 0 - nth k (v :: x) 0).
  apply IH. simpl in *. lia.
Qed.

Lemma f64_rates_length (t x : list float) :
  length t = length x ->
  length (F64.rates t x) = (length x - 1)%nat.
Proof.
  intros E. unfold F64.rates.
  rewrite zip_with_length, !f64_first_differences_length. lia.
Qed.

Lemma f64_rates_nth (t x : list float) k :
  length t = length x -> (S k < length x)%nat ->
  nth k (F64.rates t x) 0
  = nth k (F64.first_differences x) 0 / nth k (F64.first_differences t) 0.
Proof.
  intros E Hk. unfold F64.rates.
  apply zip_with_nth; rewrite f64_first_differences_length; lia.
Qed.

Lemma f64_entry_feature_vector (data : F64.array2) j s :
  (j < 5)%nat ->
  F64.entry (F64.feature_vector data) j s
  = nth (Spec.position s)
        (F64.element_features (F64.column 0 data) (F64.column (S j) data)) 0.
Proof.
  intros Hj. unfold F64.entry, Spec.slot.
  do 5 (destruct j as [| j]; [destruct s; reflexivity |]).
  lia.
Qed.

(** ** Minimum and maximum of a column of numbers *)

Lemma f64_not_leb_leb (x y : float) :
  PrimFloat.is_nan x = false -> PrimFloat.is_nan y = false ->
  (x <=? y) = false -> (y <=? x) = true.
Proof.
  intros Hx Hy H. apply f64_ltb_leb.
  destruct (y <? x) eqn:E; [reflexivity |].
  rewrite (f64_not_ltb_leb y x Hy Hx E) in H. discriminate.
Qed.

Lemma f64_np_minimum_le (a b : float) :
  PrimFloat.is_nan a = false -> PrimFloat.is_nan b = false ->
  (F64.np_minimum a b = a \/ F64.np_minimum a b = b) /\
  (F64.np_minimum a b <=? a) = true /\ (F64.np_minimum a b <=? b) = true.
Proof.
  intros Ha Hb. unfold F64.np_minimum. rewrite Ha, orb_false_r.
  destruct (a <=? b) eqn:E.
  - split; [now left |]. split; [now apply f64_leb_refl | exact E].
  - split; [now right |].
    split; [now apply f64_not_leb_leb | now apply f64_leb_refl].
Qed.

Lemma f64_np_maximum_ge (a b : float) :
  PrimFloat.is_nan a = false -> PrimFloat.is_nan b = false ->
  (F64.np_maximum a b = a \/ F64.np_maximum a b = b) /\
  (a <=? F64.np_maximum a b) = true /\ (b <=? F64.np_maximum a b) = true.
Proof.
  intros Ha Hb. unfold F64.np_maximum. rewrite Ha, orb_false_r.
  destruct (b <=? a) eqn:E.
  - split; [now left |]. split; [now apply f64_leb_refl | exact E].
  - split; [now right |].
    split; [now apply f64_not_leb_leb | now apply f64_leb_refl].
Qed.

Lemma f64_fold_minimum (l : list float) (acc : float) :
  Forall (fun x => PrimFloat.is_nan x = false) (acc :: l) ->
  In (fold_left F64.np_minimum l acc) (acc :: l) /\
  Forall (fun v => (fold_left F64.np_minimum l acc <=? v) = true) (acc :: l).
Proof.
  revert acc. induction l as [| x l IH]; intros acc Hn.
  - inversion Hn; subst. simpl. split; [now left |].
    constructor; [now apply f64_leb_refl | constructor].
  - inversion Hn as [| ? ? Ha Hxl]; subst.
    inversion Hxl as [| ? ? Hx Hl]; subst.
    destruct (f64_np_minimum_le acc x Ha Hx) as (Hc & Hle1 & Hle2).
    assert (Hn' : Forall (fun x => PrimFloat.is_nan x = false)
                    (F64.np_minimum acc x :: l)).
    { constructor; [| exact Hl]. now destruct Hc as [-> | ->]. }
    destruct (IH _ Hn') as [Hin Hall]. cbn [fold_left].
    inversion Hall as [| ? ? Hr Hrest]; subst.
    split.
    + destruct Hin as [E | Hin]; [| now right; right].
      rewrite <- E. destruct Hc as [-> | ->]; [now left | now right; left].
    + constructor; [eapply f64_leb_trans; eassumption |].
      constructor; [eapply f64_leb_trans; eassumption | exact Hrest].
Qed.

Lemma f64_fold_maximum (l : list float) (acc : float) :
  Forall (fun x => PrimFloat.is_nan x = false) (acc :: l) ->
  In (fold_left F64.np_maximum l acc) (acc :: l) /\
  Forall (fun v => (v <=? fold_left F64.np_maximum l acc) = true) (acc :: l).
Proof.
  revert acc. induction l as [| x l IH]; intros acc Hn.
  - inversion Hn; subst. simpl. split; [now left |].
    constructor; [now apply f64_leb_refl | constructor].
  - inversion Hn as [| ? ? Ha Hxl]; subst.
    inversion Hxl as [| ? ? Hx Hl]; subst.
    destruct (f64_np_maximum_ge acc x Ha Hx) as (Hc & Hle1 & Hle2).
    assert (Hn' : Forall (fun x => PrimFloat.is_nan x = false)
                    (F64.np_maximum acc x :: l)).
    { constructor; [| exact Hl]. now destruct Hc as [-> | ->]. }
    destruct (IH _ Hn') as [Hin Hall]. cbn [fold_left].
    inversion Hall as [| ? ? Hr Hrest]; subst.
    split.
    + destruct Hin as [E | Hin]; [| now right; right].
      rewrite <- E. destruct Hc as [-> | ->]; [now left | now right; left].
    + constructor; [eapply f64_leb_trans; eassumption |].
      constructor; [eapply f64_leb_trans; eassumption | exact Hrest].
Qed.

(** In a non-empty column without [nan], the minimum and the maximum are
    entries of the column and bound every entry. *)
Lemma f64_minimum_spec (x : list float) :
  x <> [] -> Forall (fun v => PrimFloat.is_nan v = false) x ->
  In (F64.minimum x) x /\
  Forall (fun v => (F64.minimum x <=? v) = true) x.
Proof.
  intros Hne Hn. destruct x as [| v vs]; [contradiction |].
  now apply f64_fold_minimum.
Qed.

Lemma f64_maximum_spec (x : list float) :
  x <> [] -> Forall (fun v => PrimFloat.is_nan v = false) x ->
  In (F64.maximum x) x /\
  Forall (fun v => (v <=? F64.maximum x) = true) x.
Proof.
  intros Hne Hn. destruct x as [| v vs]; [contradiction |].
  now apply f64_fold_maximum.
Qed.






(** ** A column that holds one value *)

Lemma f64_np_minimum_same (c : float) : F64.np_minimum c c = c.
Proof. unfold F64.np_minimum. now destruct (_ || _). Qed.

Lemma f64_np_maximum_same (c : float) : F64.np_maximum c c = c.
Proof. unfold F64.np_maximum. now destruct (_ || _). Qed.

Lemma f64_fold_same (f : float -> float -> float) (c : float) (n : nat) :
  f c c = c -> fold_left f (repeat c n) c = c.
Proof.
  intros Hf. induction n as [| n IH]; [reflexivity |].
  cbn [repeat fold_left]. now rewrite Hf.
Qed.

Lemma f64_constant_column j c (data : F64.array2) :
  Forall (fun r => nth j r 0 = c) data ->
  F64.column j data = repeat c (length data).
Proof.
  unfold F64.column. induction 1 as [| r data Hr _ IH]; [reflexivity |].
  cbn [map length repeat]. now rewrite Hr, IH.
Qed.

Lemma f64_last_repeat (c : float) (n : nat) : last (repeat c (S n)) 0 = c.
Proof.
  induction n as [| n IH]; [reflexivity |].
  change (last (repeat c (S n)) 0 = c). exact IH.
Qed.

Lemma f64_first_differences_repeat (c : float) (n : nat) :
  F64.first_differences (repeat c (S n)) = repeat (c - c) n.
Proof.
  induction n as [| n IH]; [reflexivity |].
  change (c - c :: F64.first_differences (repeat c (S n))
          = c - c :: repeat (c - c) n).
  now rewrite IH.
Qed.

Lemma f64_zero_rates (ds : list float) :
  Forall (fun d => (0 <? d) = true) ds ->
  zip_with PrimFloat.div (repeat 0 (length ds)) ds = repeat 0 (length ds).
Proof.
  induction 1 as [| d ds Hd _ IH]; [reflexivity |].
  cbn [length repeat]. unfold zip_with in *. cbn [combine map fst snd].
  now rewrite (f64_zero_div d Hd), IH.
Qed.

(** The rates of a finite constant column over increasing times are all
    the float [0]. *)
Lemma f64_constant_rates (t : list float) (c : float) (n : nat) :
  length t = S n -> PrimFloat.is_finite c = true ->
  Forall (fun d => (0 <? d) = true) (F64.first_differences t) ->
  F64.rates t (repeat c (S n)) = repeat 0 n.
Proof.
  intros Ht Hc Hpos. unfold F64.rates.
  rewrite f64_first_differences_repeat, (f64_sub_diag c Hc).
  assert (Hlen : length (F64.first_differences t) = n)
    by (rewrite f64_first_differences_length; lia).
  rewrite <- Hlen. now apply f64_zero_rates.
Qed.

(** ** Sums that meet [inf] or [nan] *)

Lemma f64_add_not_finite_l (a b : float) :
  PrimFloat.is_finite a = false -> PrimFloat.is_finite (a + b) = false.
Proof.
  rewrite !f64_is_finite_shape, FloatAxioms.add_spec.
  destruct (Prim2SF a) as [sa | sa | | sa ma ea]; try discriminate;
    intros _; destruct (Prim2SF b) as [sb | sb | | sb mb eb];
    try reflexivity; destruct sa, sb; reflexivity.
Qed.

Lemma f64_add_not_finite_r (a b : float) :
  PrimFloat.is_finite b = false -> PrimFloat.is_finite (a + b) = false.
Proof.
  rewrite !f64_is_finite_shape, FloatAxioms.add_spec.
  destruct (Prim2SF b) as [sb | sb | | sb mb eb]; try discriminate;
    intros _; destruct (Prim2SF a) as [sa | sa | | sa ma ea];
    try reflexivity; destruct sa, sb; reflexivity.
Qed.

Lemma f64_fold_add_not_finite (l : list float) (acc : float) :
  Exists (fun v => PrimFloat.is_finite v = false) (acc :: l) ->
  PrimFloat.is_finite (fold_left PrimFloat.add l acc) = false.
Proof.
  revert acc. induction l as [| x l IH]; intros acc H.
  - inversion H as [? ? Ha | ? ? Hl]; subst; [exact Ha | inversion Hl].
  - cbn [fold_left]. apply IH.
    inversion H as [? ? Ha | ? ? Hl]; subst.
    + left. now apply f64_add_not_finite_l.
    + inversion Hl as [? ? Hx | ? ? Hl']; subst.
      * left. now apply f64_add_not_finite_r.
      * now right.
Qed.

Lemma f64_total_not_finite (x : list float) :
  Exists (fun v => PrimFloat.is_finite v = false) x ->
  PrimFloat.is_finite (F64.total x) = false.
Proof.
  destruct x as [| v vs]; [intros H; inversion H |].
  apply f64_fold_add_not_finite.
Qed.

Lemma f64_div_not_finite (s d : float) :
  PrimFloat.is_finite s = false -> PrimFloat.is_finite d = true ->
  PrimFloat.is_finite (s / d) = false.
Proof.
  rewrite !f64_is_finite_shape, FloatAxioms.div_spec.
  destruct (Prim2SF s) as [ss | ss | | ss ms es]; try discriminate;
    intros _; destruct (Prim2SF d) as [sd | sd | | sd md ed];
    try discriminate; reflexivity.
Qed.

(** ** The sample tables *)

Lemma f64_steady_table_shape n : F64.shape (F64.steady_table n) n 6.
Proof.
  split.
  - unfold F64.steady_table. now rewrite length_map, length_seq.
  - unfold F64.width, F64.steady_table. apply Forall_map, Forall_forall.
    reflexivity.
Qed.

Lemma f64_linear_table_shape n : F64.shape (F64.linear_table n) n 6.
Proof.
  split.
  - unfold F64.linear_table. now rewrite length_map, length_seq.
  - unfold F64.width, F64.linear_table. apply Forall_map, Forall_forall.
    reflexivity.
Qed.

Lemma f64_frozen_table_shape n : F64.shape (F64.frozen_table n) n 6.
Proof.
  split.
  - unfold F64.frozen_table. now rewrite length_map, length_seq.
  - unfold F64.width, F64.frozen_table. apply Forall_map, Forall_forall.
    reflexivity.
Qed.

Lemma f64_Forall_forallb {A : Type} (f : A -> bool) (l : list A) :
  forallb f l = true -> Forall (fun x => f x = true) l.
Proof.
  intros H. apply Forall_forall. now apply forallb_forall.
Qed.

Lemma f64_steady_table_sample : F64.TrajectorySample (F64.steady_table 101).
Proof.
  split; [apply f64_steady_table_shape |].
  apply (f64_Forall_forallb (fun d => 0 <? d)). vm_compute. reflexivity.
Qed.

(** ** The claims that depend on float arithmetic *)

(** C8, as the float arithmetic allows it.  For a TrajectorySample (101
    rows, 6 columns, every computed time difference positive) in which an
    element column holds one finite value [c] in every row, [parse] returns
    a row whose entries for that element are: initial, final, min and max
    equal to [c]; range the float [0]; rate_min, rate_mean, rate_max and
    rate_range the float [0].  Nothing is said of the mean and the stdev:
    they are a rounded sum over the count and need not be [c] and [0]. *)
Theorem constant_trajectory_law (data : F64.array2) (j : nat) (c : float) :
  F64.TrajectorySample data -> (j < 5)%nat ->
  PrimFloat.is_finite c = true ->
  Forall (fun r => nth (S j) r 0 = c) data ->
  exists row,
    F64.parse data = Ok [row] /\
    F64.entry row j Spec.Initial = c /\
    F64.entry row j Spec.Final = c /\
    F64.entry row j Spec.Min = c /\
    F64.entry row j Spec.Max = c /\
    F64.entry row j Spec.Range = 0 /\
    F64.entry row j Spec.RateMin = 0 /\
    F64.entry row j Spec.RateMean = 0 /\
    F64.entry row j Spec.RateMax = 0 /\
    F64.entry row j Spec.RateRange = 0.
Proof.
  intros [Hshape Hinc] Hj Hc Hconst.
  exists (F64.feature_vector data).
  split; [apply (f64_parse_returns 101 6); [exact Hshape | lia | lia] |].
  destruct Hshape as [Hn Hw].
  pose proof (f64_constant_column (S j) c data Hconst) as Hcol.
  rewrite Hn in Hcol.
  assert (Hrates : F64.rates (F64.column 0 data) (F64.column (S j) data)
                   = repeat 0 100).
  { rewrite Hcol. apply f64_constant_rates; [| exact Hc | exact Hinc].
    now rewrite f64_column_length. }
  rewrite !f64_entry_feature_vector by exact Hj.
  unfold F64.element_features. cbn [Spec.position nth].
  rewrite Hrates, Hcol.
  change (repeat c 101) with (c :: repeat c 100).
  change (repeat 0 100) with (0 :: repeat 0 99).
  unfold F64.initial, F64.final, F64.minimum, F64.maximum, F64.mean,
    F64.total.
  cbn [hd].
  rewrite !f64_fold_same
    by first [apply f64_np_minimum_same | apply f64_np_maximum_same
             | reflexivity].
  change (c :: repeat c 100) with (repeat c 101).
  rewrite f64_last_repeat, (f64_sub_diag c Hc).
  repeat split; reflexivity.
Qed.

Lemma constant_trajectory_law_witness :
  F64.TrajectorySample (F64.steady_table 101) /\
  exists row,
    F64.parse (F64.steady_table 101) = Ok [row] /\
    F64.entry row 0 Spec.Min = 39.403 /\
    F64.entry row 0 Spec.Max = 39.403 /\
    F64.entry row 0 Spec.RateMean = 0.
Proof.
  split; [exact f64_steady_table_sample |].
  destruct (constant_trajectory_law (F64.steady_table 101) 0 39.403)
    as (row & E & _ & _ & Hmin & Hmax & _ & _ & Hrm & _).
  - exact f64_steady_table_sample.
  - lia.
  - reflexivity.
  - unfold F64.steady_table. apply Forall_map, Forall_forall. reflexivity.
  - exists row. repeat split; assumption.
Defined.

(** C8 as claimed fails on floats: on 101 rows of K04VD0X held at
    a = 39.403, the mean parse returns for a is below 39.403 (below the min
    and the max, which are 39.403) and the stdev is above 0. *)
Lemma constant_trajectory_law_counterexample :
  F64.TrajectorySample (F64.steady_table 101) /\
  Forall (fun r => nth 1 r 0 = 39.403) (F64.steady_table 101) /\
  exists row,
    F64.parse (F64.steady_table 101) = Ok [row] /\
    (F64.entry row 0 Spec.Mean <? 39.403) = true /\
    F64.entry row 0 Spec.Mean <> F64.entry row 0 Spec.Min /\
    (0 <? F64.entry row 0 Spec.Stdev) = true /\
    F64.entry row 0 Spec.Stdev <> 0.
Proof.
  split; [exact f64_steady_table_sample |].
  split; [unfold F64.steady_table; apply Forall_map, Forall_forall;
          reflexivity |].
  eexists. split; [vm_compute; reflexivity |].
  split; [vm_compute; reflexivity |].
  split; [intros E; apply (f_equal Prim2SF) in E; vm_compute in E;
          discriminate |].
  split; [vm_compute; reflexivity |].
  intros E; apply (f_equal Prim2SF) in E; vm_compute in E; discriminate.
Qed.






(** C3, as the code behaves.  For a table of 101 rows and 6 columns in
    which the computed time difference between rows [k] and [k+1] is zero,
    [parse] raises nothing: it returns one full row of 55 values.  For each
    of the 5 elements the rate across that time step is [inf] or [nan]
    (not finite), and so is the rate_mean entry of the returned row. *)
Theorem parse_zero_timestep_returns (data : F64.array2) (k : nat) :
  F64.shape data 101 6 -> F64.zero_timestep data k ->
  exists row,
    F64.parse data = Ok [row] /\ length row = 55%nat /\
    forall j, (j < 5)%nat ->
      PrimFloat.is_finite
        (nth k (F64.rates (F64.column 0 data) (F64.column (S j) data)) 0)
      = false /\
      PrimFloat.is_finite (F64.entry row j Spec.RateMean) = false.
Proof.
  intros Hshape [Hk Hzero].
  exists (F64.feature_vector data).
  split; [apply (f64_parse_returns 101 6); [exact Hshape | lia | lia] |].
  split; [reflexivity |].
  intros j Hj. destruct Hshape as [Hn Hw].
  unfold F64.time_steps in Hk, Hzero.
  rewrite f64_first_differences_length, f64_column_length, Hn in Hk.
  set (t := F64.column 0 data) in *. set (x := F64.column (S j) data).
  assert (Htl : length t = length x)
    by (unfold t, x; now rewrite !f64_column_length).
  assert (Hxl : length x = 101%nat)
    by (unfold x; now rewrite f64_column_length).
  assert (Hrl : length (F64.rates t x) = 100%nat)
    by (rewrite f64_rates_length, Hxl by exact Htl; reflexivity).
  assert (Hbad : PrimFloat.is_finite (nth k (F64.rates t x) 0) = false).
  { rewrite f64_rates_nth by (assumption || lia).
    now apply f64_div_by_zero. }
  split; [exact Hbad |].
  rewrite f64_entry_feature_vector by exact Hj.
  unfold F64.element_features. cbn [Spec.position nth].
  fold t x. unfold F64.mean. rewrite Hrl.
  apply f64_div_not_finite; [| reflexivity].
  apply f64_total_not_finite, Exists_exists.
  exists (nth k (F64.rates t x) 0). split; [| exact Hbad].
  apply nth_In. lia.
Qed.

Lemma f64_frozen_table_zero_timestep :
  F64.zero_timestep (F64.frozen_table 101) 0.
Proof. split; [vm_compute; lia | vm_compute; reflexivity]. Qed.

Lemma parse_zero_timestep_returns_witness :
  F64.shape (F64.frozen_table 101) 101 6 /\
  F64.zero_timestep (F64.frozen_table 101) 0 /\
  exists row,
    F64.parse (F64.frozen_table 101) = Ok [row] /\ length row = 55%nat /\
    PrimFloat.is_finite (F64.entry row 0 Spec.RateMean) = false.
Proof.
  split; [apply f64_frozen_table_shape |].
  split; [exact f64_frozen_table_zero_timestep |].
  destruct (parse_zero_timestep_returns (F64.frozen_table 101) 0)
    as (row & E & Hlen & Hrates).
  - apply f64_frozen_table_shape.
  - exact f64_frozen_table_zero_timestep.
  - exists row. split; [exact E |]. split; [exact Hlen |].
    apply (Hrates 0%nat). lia.
Defined.

(** C3 as claimed fails: a table of 101 rows whose times are all 0 has a
    zero time difference, and [parse] returns a row on it (its rate
    statistics are [nan]) instead of raising. *)
Lemma parse_zero_timestep_counterexample :
  F64.shape (F64.frozen_table 101) 101 6 /\
  F64.zero_timestep (F64.frozen_table 101) 0 /\
  ~ raises (F64.parse (F64.frozen_table 101)) /\
  exists row,
    F64.parse (F64.frozen_table 101) = Ok [row] /\
    PrimFloat.is_nan (F64.entry row 0 Spec.RateMin) = true /\
    PrimFloat.is_nan (F64.entry row 0 Spec.RateMean) = true /\
    PrimFloat.is_nan (F64.entry row 0 Spec.RateMax) = true /\
    PrimFloat.is_nan (F64.entry row 0 Spec.RateRange) = true.
Proof.
  split; [apply f64_frozen_table_shape |].
  split; [exact f64_frozen_table_zero_timestep |].
  split.
  - rewrite (f64_parse_returns 101 6)
      by (apply f64_frozen_table_shape || lia).
    intros [e E]. discriminate E.
  - eexists. split; [vm_compute; reflexivity |].
    repeat split; vm_compute; reflexivity.
Qed.

(** ** [run_simulation] on floats: what the loop reads and writes *)






(** ** The float [%] by 360 *)







(** ** The claims about the simulation side *)




(** ** [compute_from_aei] and [compute_from_jpl] on floats *)


(** C5 at the failing input.  [compute_from_aei] computes [primary] from
    the flag and then passes [primary=None] to [sim.add]: with every
    integrator, epoch and orbit the call with [barycentric=True] does what
    the call with [barycentric=False] does.  With rebound's meaning of
    [primary=None] (the centre of mass) both calls do what the
    specification asks of [barycentric=True]; so the call with
    [barycentric=False] does not take the elements relative to the Sun.  On
    an integrator that follows rebound's default and in which the frame
    matters, the features returned with [barycentric=False] are not those
    of the elements taken relative to the Sun. *)
Theorem compute_from_aei_ignores_barycentric :
  (forall (rb : F64.Rebound) (ff : F64.FloatFormat)
          (epoch a ecc inc Omega omega M : float) (savename : string),
     F64.compute_from_aei epoch a ecc inc Omega omega M true savename
     = F64.compute_from_aei epoch a ecc inc Omega omega M false savename) /\
  (forall (rb : F64.Rebound) (ff : F64.FloatFormat) (fr : F64.Frames)
          (epoch a ecc inc Omega omega M : float) (barycentric : bool)
          (savename : string),
     F64.compute_from_aei epoch a ecc inc Omega omega M barycentric savename
     = F64.compute_from_aei_in_frame
         epoch a ecc inc Omega omega M true savename) /\
  (exists features features',
     @F64.compute_from_aei F64.two_frames F64.plain_format
       2453318.8875 39.403 0.20724 5.7449 44.431 291.10 45.471 false ""
     = Ok (features, None) /\
     @F64.compute_from_aei_in_frame F64.two_frames F64.plain_format
       F64.two_frames_frames
       2453318.8875 39.403 0.20724 5.7449 44.431 291.10 45.471 false ""
     = Ok (features', None) /\
     F64.entry (hd [] features) 0 Spec.Initial = 39.403 /\
     F64.entry (hd [] features') 0 Spec.Initial = 39.403 + 0.01 /\
     features <> features').
Proof.
  split; [reflexivity |].
  split.
  - intros rb ff fr epoch a ecc inc Omega omega M barycentric savename.
    unfold F64.compute_from_aei, F64.compute_from_aei_in_frame.
    now rewrite F64.add_default_primary.
  - do 2 eexists.
    split; [vm_compute; reflexivity |].
    split; [vm_compute; reflexivity |].
    split; [reflexivity |]. split; [reflexivity |].
    intros E.
    apply (f_equal (fun f => Prim2SF (F64.entry (hd [] f) 0 Spec.Initial)))
      in E.
    vm_compute in E. discriminate E.
Qed.





(** * Further properties of the notebook on floats *)

(** ** [parse]: the statistics as numpy computes them *)

(** X21.  On floats, for every table of at least 2 rows and 6 columns,
    [parse] returns one row of 55 values, the eleven statistics of each
    element column as numpy computes them: the minimum and maximum taken
    from the first row on, the mean as the sum of the rows in order divided
    by their number, the stdev as the square root of the mean of the squared
    differences to that mean, each rate as a difference of the element
    divided by the difference of the times. *)
Theorem parse_float_statistics (data : F64.array2) (n m : nat) :
  F64.shape data n m -> (2 <= n)%nat -> (6 <= m)%nat ->
  F64.parse data = Ok [F64.feature_vector data] /\
  length (F64.feature_vector data) = 55%nat /\
  forall j, (j < 5)%nat ->
    let t := F64.column 0 data in
    let x := F64.column (S j) data in
    let v := F64.entry (F64.feature_vector data) j in
    v Spec.Initial = hd 0 x /\
    v Spec.Final = last x 0 /\
    v Spec.Min = fold_left F64.np_minimum (tl x) (hd 0 x) /\
    v Spec.Mean
    = fold_left PrimFloat.add (tl x) (hd 0 x) / F64.of_count n /\
    v Spec.Max = fold_left F64.np_maximum (tl x) (hd 0 x) /\
    v Spec.Stdev
    = PrimFloat.sqrt
        (F64.total (map (fun u => (u - v Spec.Mean) * (u - v Spec.Mean)) x)
         / F64.of_count n) /\
    v Spec.Range = v Spec.Max - v Spec.Min /\
    v Spec.RateMin = F64.minimum (F64.rates t x) /\
    v Spec.RateMean = F64.total (F64.rates t x) / F64.of_count (n - 1) /\
    v Spec.RateMax = F64.maximum (F64.rates t x) /\
    v Spec.RateRange = v Spec.RateMax - v Spec.RateMin /\
    forall k, (S k < n)%nat ->
      nth k (F64.rates t x) 0
      = (nth (S k) x 0 - nth k x 0) / (nth (S k) t 0 - nth k t 0).
Proof.
  intros Hshape Hn Hm.
  split; [now apply (f64_parse_returns n m) |].
  split; [reflexivity |].
  intros j Hj t x v. destruct Hshape as [Hlen Hw].
  assert (Hxl : length x = n)
    by (unfold x; now rewrite f64_column_length).
  assert (Htl : length t = length x)
    by (unfold t; rewrite f64_column_length; congruence).
  unfold v. rewrite !f64_entry_feature_vector by exact Hj.
  unfold F64.element_features. cbn [Spec.position nth]. fold t x.
  unfold F64.stdev, F64.mean, F64.squared_deviations, F64.mean.
  rewrite length_map, f64_rates_length, Hxl by exact Htl.
  destruct x as [| x0 xs] eqn:Ex; [simpl in Hxl; lia |].
  repeat split.
  intros k Hk.
  rewrite f64_rates_nth by (rewrite ?Htl, ?Hxl; lia).
  rewrite !f64_first_differences_nth by (rewrite ?Htl, ?Hxl; lia).
  reflexivity.
Qed.

Lemma parse_float_statistics_witness :
  F64.shape (F64.steady_table 101) 101 6 /\
  F64.parse (F64.steady_table 101)
  = Ok [F64.feature_vector (F64.steady_table 101)] /\
  F64.entry (F64.feature_vector (F64.steady_table 101)) 0 Spec.Mean
  = fold_left PrimFloat.add (repeat 39.403 100) 39.403 / 101.
Proof.
  split; [apply f64_steady_table_shape |].
  destruct (parse_float_statistics (F64.steady_table 101) 101 6)
    as (E & _ & H).
  - apply f64_steady_table_shape.
  - lia.
  - lia.
  - split; [exact E |].
    destruct (H 0%nat) as (_ & _ & _ & Hmean & _); [lia |].
    exact Hmean.
Defined.

(** ** [parse]: minimum and maximum *)

Lemma f64_numbers_check (j : nat) (data : F64.array2) :
  forallb (fun r => negb (PrimFloat.is_nan (nth j r 0))) data = true ->
  Forall (fun r => PrimFloat.is_nan (nth j r 0) = false) data.
Proof.
  intros H. apply f64_Forall_forallb in H.
  eapply Forall_impl; [| exact H].
  intros r Hr. now apply negb_true_iff.
Qed.

(** X22.  When an element column holds no [nan], the min and max entries
    [parse] returns for it are values of the column, and every value of the
    column lies between them. *)
Theorem parse_min_max_entries (data : F64.array2) (n m j : nat) :
  F64.shape data n m -> (2 <= n)%nat -> (6 <= m)%nat -> (j < 5)%nat ->
  Forall (fun r => PrimFloat.is_nan (nth (S j) r 0) = false) data ->
  exists row,
    F64.parse data = Ok [row] /\
    In (F64.entry row j Spec.Min) (F64.column (S j) data) /\
    In (F64.entry row j Spec.Max) (F64.column (S j) data) /\
    Forall (fun v => (F64.entry row j Spec.Min <=? v) = true /\
                     (v <=? F64.entry row j Spec.Max) = true)
           (F64.column (S j) data).
Proof.
  intros Hshape Hn Hm Hj Hnum.
  exists (F64.feature_vector data).
  split; [now apply (f64_parse_returns n m) |].
  destruct Hshape as [Hlen Hw].
  rewrite !f64_entry_feature_vector by exact Hj.
  unfold F64.element_features. cbn [Spec.position nth].
  set (x := F64.column (S j) data).
  assert (Hxn : Forall (fun v => PrimFloat.is_nan v = false) x)
    by (unfold x, F64.column; now apply Forall_map).
  assert (Hxne : x <> []).
  { intros E. apply (f_equal (@length _)) in E.
    unfold x in E. rewrite f64_column_length in E. simpl in E. lia. }
  destruct (f64_minimum_spec x Hxne Hxn) as [Hmin_in Hmin].
  destruct (f64_maximum_spec x Hxne Hxn) as [Hmax_in Hmax].
  split; [exact Hmin_in |]. split; [exact Hmax_in |].
  rewrite Forall_forall in Hmin, Hmax. apply Forall_forall.
  intros v Hv. split; [now apply Hmin | now apply Hmax].
Qed.

Lemma parse_min_max_entries_witness :
  F64.shape (F64.linear_table 101) 101 6 /\
  exists row,
    F64.parse (F64.linear_table 101) = Ok [row] /\
    In (F64.entry row 0 Spec.Min) (F64.column 1 (F64.linear_table 101)) /\
    In (F64.entry row 0 Spec.Max) (F64.column 1 (F64.linear_table 101)).
Proof.
  split; [apply f64_linear_table_shape |].
  destruct (parse_min_max_entries (F64.linear_table 101) 101 6 0)
    as (row & E & Hmin & Hmax & _).
  - apply f64_linear_table_shape.
  - lia.
  - lia.
  - lia.
  - apply f64_numbers_check. vm_compute. reflexivity.
  - exists row. repeat split; assumption.
Defined.

(** ** [parse]: rates that are all equal *)

(** X23.  When every computed rate of an element is one and the same
    finite float [r], the rate_min and rate_max entries are [r] and the
    rate_range entry is the float [0]. *)
Theorem parse_equal_rates (data : F64.array2) (n m j : nat) (r : float) :
  F64.shape data n m -> (2 <= n)%nat -> (6 <= m)%nat -> (j < 5)%nat ->
  PrimFloat.is_finite r = true ->
  Forall (fun v => v = r)
         (F64.rates (F64.column 0 data) (F64.column (S j) data)) ->
  exists row,
    F64.parse data = Ok [row] /\
    F64.entry row j Spec.RateMin = r /\
    F64.entry row j Spec.RateMax = r /\
    F64.entry row j Spec.RateRange = 0.
Proof.
  intros Hshape Hn Hm Hj Hr Hall.
  exists (F64.feature_vector data).
  split; [now apply (f64_parse_returns n m) |].
  destruct Hshape as [Hlen Hw].
  rewrite !f64_entry_feature_vector by exact Hj.
  unfold F64.element_features. cbn [Spec.position nth].
  set (rs := F64.rates (F64.column 0 data) (F64.column (S j) data)) in *.
  assert (Hrl : length rs = (n - 1)%nat).
  { unfold rs. rewrite f64_rates_length, f64_column_length
      by (now rewrite !f64_column_length).
    congruence. }
  assert (E : rs = repeat r (length rs)).
  { clear Hrl. induction Hall as [| v l Hv _ IH]; [reflexivity |].
    cbn [length repeat]. now rewrite Hv, <- IH. }
  rewrite E, Hrl.
  destruct (n - 1)%nat as [| k] eqn:Ek; [lia |].
  cbn [repeat]. unfold F64.minimum, F64.maximum.
  rewrite !f64_fold_same
    by first [apply f64_np_minimum_same | apply f64_np_maximum_same].
  rewrite (f64_sub_diag r Hr). repeat split.
Qed.

Lemma f64_equal_check (r : float) (l : list float) :
  forallb (fun v => PrimFloat.Leibniz.eqb v r) l = true ->
  Forall (fun v => v = r) l.
Proof.
  intros H. apply f64_Forall_forallb in H.
  eapply Forall_impl; [| exact H].
  intros v Hv. now apply FloatAxioms.Leibniz.eqb_spec.
Qed.

Lemma parse_equal_rates_witness :
  F64.shape (F64.linear_table 101) 101 6 /\
  exists row,
    F64.parse (F64.linear_table 101) = Ok [row] /\
    F64.entry row 0 Spec.RateMin = 0.001 /\
    F64.entry row 0 Spec.RateMax = 0.001 /\
    F64.entry row 0 Spec.RateRange = 0.
Proof.
  split; [apply f64_linear_table_shape |].
  apply (parse_equal_rates (F64.linear_table 101) 101 6 0 0.001).
  - apply f64_linear_table_shape.
  - lia.
  - lia.
  - lia.
  - reflexivity.
  - apply f64_equal_check. vm_compute. reflexivity.
Defined.

(** ** [parse]: a [nan] in a column *)

Lemma f64_np_minimum_nan (a b : float) :
  PrimFloat.is_nan a = true \/ PrimFloat.is_nan b = true ->
  PrimFloat.is_nan (F64.np_minimum a b) = true.
Proof.
  unfold F64.np_minimum. intros [Ha | Hb].
  - now rewrite Ha, orb_true_r.
  - destruct (PrimFloat.is_nan a) eqn:Ha; [now rewrite orb_true_r |].
    rewrite orb_false_r.
    destruct (a <=? b) eqn:E; [| exact Hb].
    apply f64_leb_key in E. apply f64_is_nan_shape in Hb. tauto.
Qed.

Lemma f64_np_maximum_nan (a b : float) :
  PrimFloat.is_nan a = true \/ PrimFloat.is_nan b = true ->
  PrimFloat.is_nan (F64.np_maximum a b) = true.
Proof.
  unfold F64.np_maximum. intros [Ha | Hb].
  - now rewrite Ha, orb_true_r.
  - destruct (PrimFloat.is_nan a) eqn:Ha; [now rewrite orb_true_r |].
    rewrite orb_false_r.
    destruct (b <=? a) eqn:E; [| exact Hb].
    apply f64_leb_key in E. apply f64_is_nan_shape in Hb. tauto.
Qed.

Lemma f64_add_nan (a b : float) :
  PrimFloat.is_nan a = true \/ PrimFloat.is_nan b = true ->
  PrimFloat.is_nan (a + b) = true.
Proof.
  rewrite !f64_is_nan_shape, FloatAxioms.add_spec.
  intros [-> | ->]; [reflexivity |].
  now destruct (Prim2SF a).
Qed.

Lemma f64_sub_nan (a b : float) :
  PrimFloat.is_nan a = true \/ PrimFloat.is_nan b = true ->
  PrimFloat.is_nan (a - b) = true.
Proof.
  rewrite !f64_is_nan_shape, FloatAxioms.sub_spec.
  intros [-> | ->]; [reflexivity |].
  now destruct (Prim2SF a).
Qed.

Lemma f64_mul_nan (a b : float) :
  PrimFloat.is_nan a = true \/ PrimFloat.is_nan b = true ->
  PrimFloat.is_nan (a * b) = true.
Proof.
  rewrite !f64_is_nan_shape, FloatAxioms.mul_spec.
  intros [-> | ->]; [reflexivity |].
  now destruct (Prim2SF a).
Qed.

Lemma f64_div_nan (a b : float) :
  PrimFloat.is_nan a = true -> PrimFloat.is_nan (a / b) = true.
Proof.
  rewrite !f64_is_nan_shape, FloatAxioms.div_spec. now intros ->.
Qed.

Lemma f64_sqrt_nan (a : float) :
  PrimFloat.is_nan a = true -> PrimFloat.is_nan (PrimFloat.sqrt a) = true.
Proof.
  rewrite !f64_is_nan_shape, FloatAxioms.sqrt_spec. now intros ->.
Qed.

(** A fold by an operation that hands on [nan] is [nan] as soon as the
    start or one of the items is. *)
Lemma f64_fold_nan (f : float -> float -> float) (l : list float)
      (acc : float) :
  (forall a b, PrimFloat.is_nan a = true \/ PrimFloat.is_nan b = true ->
               PrimFloat.is_nan (f a b) = true) ->
  Exists (fun v => PrimFloat.is_nan v = true) (acc :: l) ->
  PrimFloat.is_nan (fold_left f l acc) = true.
Proof.
  intros Hf. revert acc. induction l as [| x l IH]; intros acc H.
  - inversion H as [? ? Ha | ? ? Hl]; subst; [exact Ha | inversion Hl].
  - cbn [fold_left]. apply IH.
    inversion H as [? ? Ha | ? ? Hl]; subst.
    + left. apply Hf. now left.
    + inversion Hl as [? ? Hx | ? ? Hl']; subst.
      * left. apply Hf. now right.
      * now right.
Qed.

(** X24.  [parse] does not reject a [nan]: when an element column of a
    table of at least 2 rows and 6 columns holds a [nan], [parse] returns,
    and the min, mean, max, stdev and range entries of that element are
    [nan]. *)
Theorem parse_nan_column (data : F64.array2) (n m j : nat) :
  F64.shape data n m -> (2 <= n)%nat -> (6 <= m)%nat -> (j < 5)%nat ->
  Exists (fun r => PrimFloat.is_nan (nth (S j) r 0) = true) data ->
  exists row,
    F64.parse data = Ok [row] /\
    PrimFloat.is_nan (F64.entry row j Spec.Min) = true /\
    PrimFloat.is_nan (F64.entry row j Spec.Mean) = true /\
    PrimFloat.is_nan (F64.entry row j Spec.Max) = true /\
    PrimFloat.is_nan (F64.entry row j Spec.Stdev) = true /\
    PrimFloat.is_nan (F64.entry row j Spec.Range) = true.
Proof.
  intros Hshape Hn Hm Hj Hnan.
  exists (F64.feature_vector data).
  split; [now apply (f64_parse_returns n m) |].
  destruct Hshape as [Hlen Hw].
  rewrite !f64_entry_feature_vector by exact Hj.
  unfold F64.element_features. cbn [Spec.position nth].
  set (x := F64.column (S j) data).
  assert (Hx : Exists (fun v => PrimFloat.is_nan v = true) x)
    by (unfold x, F64.column; now apply Exists_map).
  assert (Hmin : PrimFloat.is_nan (F64.minimum x) = true).
  { destruct x as [| v vs]; [inversion Hx |].
    now apply f64_fold_nan; [apply f64_np_minimum_nan |]. }
  assert (Hmax : PrimFloat.is_nan (F64.maximum x) = true).
  { destruct x as [| v vs]; [inversion Hx |].
    now apply f64_fold_nan; [apply f64_np_maximum_nan |]. }
  assert (Hmean : PrimFloat.is_nan (F64.mean x) = true).
  { unfold F64.mean. apply f64_div_nan.
    destruct x as [| v vs]; [inversion Hx |].
    now apply f64_fold_nan; [apply f64_add_nan |]. }
  split; [exact Hmin |]. split; [exact Hmean |]. split; [exact Hmax |].
  split.
  - unfold F64.stdev, F64.mean at 1. apply f64_sqrt_nan, f64_div_nan.
    unfold F64.squared_deviations.
    destruct x as [| v vs]; [inversion Hx |].
    cbn [map]. apply f64_fold_nan; [apply f64_add_nan |].
    left. apply f64_mul_nan. left. apply f64_sub_nan. now right.
  - apply f64_sub_nan. now left.
Qed.

Lemma parse_nan_column_witness :
  F64.shape (map (fun r => [hd 0 r; nan; 0.2; 5.7; 44.4; 291.1])
                 (F64.steady_table 3)) 3 6 /\
  exists row,
    F64.parse (map (fun r => [hd 0 r; nan; 0.2; 5.7; 44.4; 291.1])
                   (F64.steady_table 3)) = Ok [row] /\
    PrimFloat.is_nan (F64.entry row 0 Spec.Mean) = true.
Proof.
  assert (Hs : F64.shape (map (fun r => [hd 0 r; nan; 0.2; 5.7; 44.4; 291.1])
                              (F64.steady_table 3)) 3 6)
    by (split; [reflexivity | repeat constructor]).
  split; [exact Hs |].
  destruct (parse_nan_column _ 3 6 0 Hs) as (row & E & _ & Hmean & _).
  - lia.
  - lia.
  - lia.
  - left. reflexivity.
  - exists row. split; [exact E | exact Hmean].
Defined.

(** ** [run_simulation]: the table it hands to [parse] *)





